(** * unbrick: the ASUS AURA protocol codec and the safe session controller

    A shallow embedding of [src/protocol.js] (class [AuraProtocol]),
    [src/hid.js] (class [HIDDevice]) and [src/aura-safe.js]
    (class [SafeAuraController]), with the properties of the wire format,
    of the session state machine and of brick detection and recovery.

    Conventions.
    - JavaScript numbers are integers of [Z]; [undefined] is [None].
    - A [Buffer] is a list of bytes held as [Z] in [0, 256); a store into a
      buffer wraps its value modulo 256 and is dropped when out of range.
    - A method that mutates [this] or talks to the device is a function from
      the store to a result and the new store; a [throw] keeps the store as
      it stood at the throw.
    - [console.log] output (the [verbose] flag) is not modelled. *)

From stdpp Require Import base option list sorting gmap strings.
From Stdlib Require Import ZArith Lia.

Local Open Scope Z_scope.

(** ** Buffers *)

Abbreviation Buffer := (list Z) (only parsing).

(** Conversion applied by a store into a [Uint8Array]. *)
Definition ToUint8 (v : Z) : Z := v mod 256.

(** [Buffer.alloc(n)]: [n] zero bytes. *)
Definition Buffer_alloc (n : nat) : Buffer := replicate n 0.

(** [buf[i] = v]. *)
Definition Buffer_set (buf : Buffer) (i : nat) (v : Z) : Buffer :=
  <[i := ToUint8 v]> buf.

(** [buf[i]], [undefined] past the end. *)
Definition Buffer_get (buf : Buffer) (i : nat) : option Z := buf !! i.

(** [Buffer.from(array)] of an array of numbers. *)
Definition Buffer_from (data : list Z) : Buffer := ToUint8 <$> data.

(** ** Session states and errors *)

Inductive States := DISCONNECTED | LOCKED | RUNTIME | COMMITTED.

Global Instance States_eq_dec : EqDecision States.
Proof. solve_decision. Defined.

(** One constructor per [throw] site of the three source files. *)
Inductive Error :=
| BSM_init_while_disconnected   (* '[BSM] Cannot init topology while disconnected' *)
| BSM_not_connected             (* '[BSM] Not connected' *)
| BSM_cannot_commit (s : States)(* '[BSM] Cannot commit in state: <state>' *)
| Invalid_config_response       (* 'Invalid config response' *)
| Not_connected                 (* sendPacket: 'Not connected' *)
| Bad_packet_size               (* sendPacket: 'Packet must be 65 bytes' *)
| Controller_not_found          (* 'ASUS Aura controller not found (0b05:19af)' *)
| Permission_denied (path : string)
| Device_not_found (path : string)
| Device_not_open               (* HIDDevice: 'Device not open' *)
| Short_write (expected written : nat) (* HIDDevice: 'Write failed: ...' *)
| Fs_error                      (* an exception of the fs module, rethrown *)
| RangeError_array_length.      (* Array(count) with an invalid length *)

(** The source throws plain [Error] objects; the specification groups them
    in three kinds, by throw site. *)
Inductive ErrorKind := StateError | ProtocolError | ConnectionError | OtherError.

Definition kind (e : Error) : ErrorKind :=
  match e with
  | BSM_init_while_disconnected | BSM_not_connected | BSM_cannot_commit _ => StateError
  | Invalid_config_response => ProtocolError
  | Controller_not_found | Permission_denied _ | Device_not_found _ => ConnectionError
  | _ => OtherError
  end.

(** ** A state-and-exception monad *)

Inductive Result (A : Type) :=
| Ok (a : A)
| Throw (e : Error).
Arguments Ok {A} a.
Arguments Throw {A} e.

Definition M (S A : Type) : Type := S → Result A * S.

Definition ret {S A} (a : A) : M S A := λ s, (Ok a, s).

Definition bind {S A B} (m : M S A) (f : A → M S B) : M S B :=
  λ s, match m s with
       | (Ok a, s') => f a s'
       | (Throw e, s') => (Throw e, s')
       end.

Notation "'let*' x ':=' m 'in' k" := (bind m (λ x, k))
  (at level 10, x name, m at level 100, k at level 200).

Definition throw {S A} (e : Error) : M S A := λ s, (Throw e, s).
Definition get {S} : M S S := λ s, (Ok s, s).
Definition put {S} (s : S) : M S unit := λ _, (Ok tt, s).

(** [try { body } catch (error) { handler }]. *)
Definition try_catch {S A} (body : M S A) (handler : Error → M S A) : M S A :=
  λ s, match body s with
       | (Ok a, s') => (Ok a, s')
       | (Throw e, s') => handler e s'
       end.

(** [for (const x of xs) { body(x) }]. *)
Fixpoint for_of {S A} (xs : list A) (body : A → M S unit) : M S unit :=
  match xs with
  | [] => ret tt
  | x :: rest => let* _ := body x in for_of rest body
  end.

(** ** hid.js: the raw device *)

(** What the operating system does, seen from [fs]: the outcome of a write
    or a read is a function of the data written to the device so far. *)
Inductive OpenOutcome := Opened (fd : Z) | EACCES | ENOENT | EOTHER.

Record Kernel := {
  findAuraDevice : option string;             (* [findAuraDevice()], [null] as [None] *)
  openSync : string → OpenOutcome;            (* [fs.openSync(path, 'r+')] *)
  writeSync : list Buffer → Buffer → option nat; (* bytes written; [None]: throws *)
  readSync : list Buffer → option (list Z);   (* bytes read; [None]: throws *)
}.

(** The data that reached the device, oldest first. *)
Abbreviation Wire := (list (list Z)) (only parsing).

Module HID.

Record HIDDevice := { path : string; fd : option Z }.

(** [!this.fd]: [null] and [0] are both falsy. *)
Definition fd_falsy (d : HIDDevice) : bool :=
  match fd d with
  | None => true
  | Some n => n =? 0
  end.

Section WithKernel.
Context (K : Kernel).

(** [new HIDDevice(devicePath)]. *)
Definition new (devicePath : string) : M Wire HIDDevice :=
  match openSync K devicePath with
  | Opened n => ret {| path := devicePath; fd := Some n |}
  | EACCES => throw (Permission_denied devicePath)
  | ENOENT => throw (Device_not_found devicePath)
  | EOTHER => throw Fs_error
  end.

Definition write (d : HIDDevice) (data : list Z) : M Wire nat :=
  if fd_falsy d then throw Device_not_open
  else
    let buffer := Buffer_from data in
    λ w, match writeSync K w buffer with
         | None => (Throw Fs_error, w)
         | Some written =>
             let w' := w ++ [take written buffer] in
             if decide (written ≠ length buffer)
             then (Throw (Short_write (length buffer) written), w')
             else (Ok written, w')
         end.

Definition readTimeout (d : HIDDevice) (timeoutMs : Z) : M Wire (option (list Z)) :=
  if fd_falsy d then throw Device_not_open
  else
    λ w, match readSync K w with
         | None => (Ok None, w)                       (* catch: return null *)
         | Some bytes =>
             let got := take 65 (Buffer_from bytes) in
             if decide (length got = 0%nat) then (Ok None, w)
             else (Ok (Some got), w)
         end.

(** [close()]; [fs.closeSync] is taken to succeed. *)
Definition close (d : HIDDevice) : HIDDevice :=
  {| path := path d; fd := None |}.

(** [HID.devices()]: at most one entry, carrying the ids of hid.js. *)
Record DeviceInfo := { vendorId : Z; productId : Z; devicePath : string }.

Definition devices : list DeviceInfo :=
  match findAuraDevice K with
  | None => []
  | Some p => [{| vendorId := 0x0b05; productId := 0x19af; devicePath := p |}]
  end.

End WithKernel.
End HID.

(** Running a device action, or an action on a part of the store. *)
Definition io {X A} (m : M Wire A) : M (X * Wire) A :=
  λ s, let '(res, w') := m s.2 in (res, (s.1, w')).

Definition of_result {S A} (res : Result A) : M S A := λ s, (res, s).

(** ** protocol.js: the packet codec *)

Module Protocol.

Definition ASUS_VENDOR_ID : Z := 0x0b05.
Definition AURA_PRODUCT_ID : Z := 0x19af.
Definition PACKET_SIZE : nat := 65.

Module Color.
Record t := rgb { r : Z; g : Z; b : Z }.
End Color.

Record AuraProtocol := { device : option HID.HIDDevice }.

(** The decoded configuration table. *)
Record Config := {
  raw : Buffer;
  configBytes : Buffer;
  channel0_leds : option Z;
  channel1_leds : option Z;
  channel2_leds : option Z;
}.

(** [createPacket()]. *)
Definition createPacket : Buffer := Buffer_alloc PACKET_SIZE.

(** The packet each command builds before handing it to [sendPacket]. *)
Definition getConfig_packet : Buffer :=
  let packet := createPacket in
  let packet := Buffer_set packet 0 0xEC in
  let packet := Buffer_set packet 1 0xB0 in
  packet.

Definition setLEDCount_packet (channel count : Z) : Buffer :=
  let packet := createPacket in
  let packet := Buffer_set packet 0 0xEC in
  let packet := Buffer_set packet 1 0x52 in
  let packet := Buffer_set packet 2 0x53 in
  let packet := Buffer_set packet 3 channel in
  let packet := Buffer_set packet 4 count in
  packet.

Definition commit_packet : Buffer :=
  let packet := createPacket in
  let packet := Buffer_set packet 0 0xEC in
  let packet := Buffer_set packet 1 0x3F in
  let packet := Buffer_set packet 2 0x55 in
  packet.

Definition setEffect_packet (channel mode r g b brightness : Z) : Buffer :=
  let packet := createPacket in
  let packet := Buffer_set packet 0 0xEC in
  let packet := Buffer_set packet 1 0x35 in
  let packet := Buffer_set packet 2 channel in
  let packet := Buffer_set packet 3 mode in
  let packet := Buffer_set packet 4 r in
  let packet := Buffer_set packet 5 g in
  let packet := Buffer_set packet 6 b in
  let packet := Buffer_set packet 7 brightness in
  packet.

(** One turn of the loop of [setDirectLED], at index [i]. *)
Definition setDirectLED_step (colors : list Color.t) (packet : Buffer) (i : nat) : Buffer :=
  match colors !! i with
  | None => packet
  | Some c =>
      let idx := (0x05 + i * 3)%nat in
      let packet := Buffer_set packet (idx + 0) (Color.r c) in
      let packet := Buffer_set packet (idx + 1) (Color.g c) in
      let packet := Buffer_set packet (idx + 2) (Color.b c) in
      packet
  end.

(** [for (let i = 0; i < colors.length && i < 20; i++)]: the indices below
    both bounds, in increasing order. *)
Definition setDirectLED_packet (channel offset : Z) (colors : list Color.t) : Buffer :=
  let packet := createPacket in
  let packet := Buffer_set packet 0 0xEC in
  let packet := Buffer_set packet 1 0x40 in
  let packet := Buffer_set packet 2 (Z.lor 0x80 channel) in
  let packet := Buffer_set packet 3 offset in
  let packet := Buffer_set packet 4 (Z.of_nat (length colors)) in
  foldl (setDirectLED_step colors) packet (seq 0 (length colors `min` 20)).

(** The check and the field extraction that [getConfig] applies to the
    response of the device ([null] as [None]). *)
Definition decodeConfig (response : option Buffer) : Result Config :=
  match response with
  | None => Throw Invalid_config_response
  | Some response =>
      if decide (Buffer_get response 0 ≠ Some 0xEC ∨ Buffer_get response 1 ≠ Some 0x30)
      then Throw Invalid_config_response
      else Ok {| raw := response;
                 configBytes := response;
                 channel0_leds := Buffer_get response 0x0A;
                 channel1_leds := Buffer_get response 0x10;
                 channel2_leds := Buffer_get response 0x16 |}
  end.

Abbreviation Store := (AuraProtocol * list (list Z))%type (only parsing).

Section WithKernel.
Context (K : Kernel).

Definition connect : M Store unit :=
  let devices := HID.devices K in
  let auraDevice :=
    find (λ d, bool_decide (HID.vendorId d = ASUS_VENDOR_ID ∧
                            HID.productId d = AURA_PRODUCT_ID)) devices in
  match auraDevice with
  | None => throw Controller_not_found
  | Some info =>
      let* d := io (HID.new K (HID.devicePath info)) in
      λ s, (Ok tt, ({| device := Some d |}, s.2))
  end.

Definition disconnect : M Store unit :=
  λ s, match device s.1 with
       | Some d => let _ := HID.close d in (Ok tt, ({| device := None |}, s.2))
       | None => (Ok tt, s)
       end.

Definition sendPacket (packet : Buffer) (waitResponse : bool) : M Store (option Buffer) :=
  let* this := get in
  match device this.1 with
  | None => throw Not_connected
  | Some d =>
      if decide (length packet ≠ PACKET_SIZE) then throw Bad_packet_size
      else
        let* _ := io (HID.write K d packet) in
        if waitResponse then
          let* response := io (HID.readTimeout K d 1000) in
          ret (Buffer_from <$> response)
        else ret None
  end.

Definition getConfig : M Store Config :=
  let* response := sendPacket getConfig_packet true in
  of_result (decodeConfig response).

Definition setLEDCount (channel count : Z) : M Store unit :=
  let* _ := sendPacket (setLEDCount_packet channel count) false in ret tt.

Definition commit : M Store unit :=
  let* _ := sendPacket commit_packet false in ret tt.

Definition setEffect (channel mode r g b brightness : Z) : M Store unit :=
  let* _ := sendPacket (setEffect_packet channel mode r g b brightness) false in ret tt.

Definition setDirectLED (channel offset : Z) (colors : list Color.t) : M Store unit :=
  let* _ := sendPacket (setDirectLED_packet channel offset colors) false in ret tt.

End WithKernel.
End Protocol.

(** ** aura-safe.js: the session controller *)

Module Safe.

Record SafeAuraController := {
  protocol : Protocol.AuraProtocol;
  state : States;
  topology : gmap N Z;     (* channel index ↦ LED count *)
}.

Abbreviation Store := (SafeAuraController * list (list Z))%type (only parsing).

(** [Object.entries(o)] of an object whose keys are channel indices:
    array-index keys (below 2^32 - 1) are enumerated in ascending order,
    whatever the order they were inserted in. This is the enumeration of
    the source for objects with such keys only; integer keys of 2^32 - 1
    and more would follow in insertion order. *)
Definition key_le (x y : N * Z) : Prop := (x.1 ≤ y.1)%N.

Global Instance key_le_dec : RelDecision key_le.
Proof. intros x y. unfold key_le. apply _. Defined.

Definition Object_entries (o : gmap N Z) : list (N * Z) :=
  merge_sort key_le (map_to_list o).

(** [o[key]] for a numeric [key]; negative keys name no channel. *)
Definition Object_get (o : gmap N Z) (key : Z) : option Z :=
  if decide (0 ≤ key) then o !! Z.to_N key else None.

Definition default_topology : gmap N Z :=
  {[ 0%N := 15; 1%N := 15; 2%N := 16 ]}.

(** [new SafeAuraController(options)], with [options.topology] optional. *)
Definition new (options_topology : option (gmap N Z)) : SafeAuraController :=
  {| protocol := {| Protocol.device := None |};
     state := DISCONNECTED;
     topology := default default_topology options_topology |}.

(** Access to the fields of [this]. *)
Definition this : M Store SafeAuraController := λ s, (Ok s.1, s).

Definition with_state (st : States) (c : SafeAuraController) : SafeAuraController :=
  {| protocol := protocol c; state := st; topology := topology c |}.

Definition with_protocol (p : Protocol.AuraProtocol) (c : SafeAuraController)
  : SafeAuraController :=
  {| protocol := p; state := state c; topology := topology c |}.

(** [this.state = st]. *)
Definition set_state (st : States) : M Store unit :=
  λ s, (Ok tt, (with_state st s.1, s.2)).

(** A call [this.protocol.m(...)]. *)
Definition on_protocol {A} (m : M Protocol.Store A) : M Store A :=
  λ s, let '(res, pw) := m (protocol s.1, s.2) in
       (res, (with_protocol pw.1 s.1, pw.2)).

Section WithKernel.
Context (K : Kernel).

(** The body of the loops over [[channel, count]] entries:
    [this.protocol.setLEDCount(parseInt(channel), count)]. *)
Definition send_entry (entry : N * Z) : M Store unit :=
  on_protocol (Protocol.setLEDCount K (Z.of_N entry.1) entry.2).

Definition initTopology : M Store unit :=
  let* self := this in
  if decide (state self = DISCONNECTED) then throw BSM_init_while_disconnected
  else
    let* _ := for_of (Object_entries (topology self)) send_entry in
    set_state RUNTIME.

Definition connect : M Store unit :=
  let* _ := on_protocol (Protocol.connect K) in
  let* _ := set_state LOCKED in
  initTopology.

Definition disconnect : M Store unit :=
  let* _ := on_protocol Protocol.disconnect in
  set_state DISCONNECTED.

Definition _ensureRuntime : M Store unit :=
  let* self := this in
  if decide (state self = DISCONNECTED) then throw BSM_not_connected
  else if decide (state self = LOCKED) then initTopology
  else ret tt.

Definition setLED (channel ledIndex r g b : Z) : M Store unit :=
  let* _ := _ensureRuntime in
  on_protocol (Protocol.setDirectLED K channel ledIndex [Protocol.Color.rgb r g b]).

(** [Array(count)] throws a RangeError unless [count] is an array length. *)
Definition setAllLEDs (channel r g b : Z) : M Store unit :=
  let* _ := _ensureRuntime in
  let* self := this in
  let count :=
    match Object_get (topology self) channel with
    | Some n => if decide (n = 0) then 16 else n
    | None => 16
    end in
  if decide (count < 0 ∨ 2 ^ 32 ≤ count) then throw RangeError_array_length
  else
    let colors := replicate (Z.to_nat count) (Protocol.Color.rgb r g b) in
    on_protocol (Protocol.setDirectLED K channel 0 colors).

(** The trailing parameters default to [r = 0, g = 0, b = 0, brightness = 0xFF]. *)
Definition setEffect (channel mode : Z) (r g b brightness : option Z) : M Store unit :=
  let* _ := _ensureRuntime in
  on_protocol (Protocol.setEffect K channel mode
                 (default 0 r) (default 0 g) (default 0 b) (default 0xFF brightness)).

Definition commit : M Store unit :=
  let* self := this in
  if decide (state self ≠ RUNTIME) then throw (BSM_cannot_commit (state self))
  else
    let* _ := on_protocol (Protocol.commit K) in
    set_state COMMITTED.

Definition getConfig : M Store Protocol.Config :=
  let* self := this in
  if decide (state self = DISCONNECTED) then throw BSM_not_connected
  else on_protocol (Protocol.getConfig K).

Definition getState : M Store States :=
  let* self := this in ret (state self).

Definition isBricked : M Store bool :=
  try_catch
    (let* config := getConfig in
     let ch0 := Protocol.channel0_leds config in
     let ch1 := Protocol.channel1_leds config in
     let ch2 := Protocol.channel2_leds config in
     if decide (ch0 = Some 0 ∨ ch1 = Some 0 ∨ ch2 = Some 0) then ret true
     else if decide (ch0 = ch1 ∧ ch1 = ch2 ∧ ch0 ≠ Some 15) then ret true
     else ret false)
    (λ error, ret true).

(** [undefined >= 16] is false. *)
Definition unbrick (targetTopology : option (gmap N Z)) : M Store bool :=
  let* self := this in
  let topology := default (topology self) targetTopology in
  let* _ := for_of (Object_entries topology) send_entry in
  let* _ := on_protocol (Protocol.commit K) in
  let* config := getConfig in
  let success :=
    match Protocol.channel2_leds config with
    | Some n => bool_decide (16 ≤ n)
    | None => false
    end in
  let* _ := set_state COMMITTED in
  ret success.

End WithKernel.
End Safe.

(** ** A device that answers *)

(** A kernel that finds the device at [/dev/hidraw0], accepts every write
    in full and answers every read with [response]. *)
Definition answering (response : list Z) : Kernel :=
  {| findAuraDevice := Some "/dev/hidraw0"%string;
     openSync := λ _, Opened 3;
     writeSync := λ _ buffer, Some (length buffer);
     readSync := λ _, Some response |}.

(** A configuration response with the given channel counts. *)
Definition config_response (c0 c1 c2 : Z) : list Z :=
  <[0x16%nat := c2]> (<[0x10%nat := c1]> (<[0x0A%nat := c0]>
    ([0xEC; 0x30] ++ replicate 63 0))).


(** ** Vocabulary of the properties *)

(** The three bytes a colour occupies in a direct-colour packet. *)
Definition triplet (c : Protocol.Color.t) : list Z :=
  [ToUint8 (Protocol.Color.r c); ToUint8 (Protocol.Color.g c);
   ToUint8 (Protocol.Color.b c)].

Definition triplets (colors : list Protocol.Color.t) : list Z := colors ≫= triplet.

(** A command packet whose first [fields] bytes are the ones the command
    writes: 65 bytes, the prefix [0xEC] first, zero from [fields] on. *)
Definition well_formed (fields : nat) (packet : Buffer) : Prop :=
  length packet = 65%nat ∧
  packet !! 0%nat = Some 0xEC ∧
  ∀ i : nat, (fields ≤ i < 65)%nat → packet !! i = Some 0.

Definition is_bytes (buf : Buffer) : Prop := Forall (λ v, 0 ≤ v < 256) buf.

(** The transport takes every write in full. *)
Definition accepting (K : Kernel) : Prop :=
  ∀ w buffer, writeSync K w buffer = Some (length buffer).

(** The protocol object holds an open device handle. *)
Definition opened (p : Protocol.AuraProtocol) : Prop :=
  ∃ d, Protocol.device p = Some d ∧ HID.fd_falsy d = false.

(** What [sendPacket(packet, true)] returns for the read that follows the
    writes [w]. *)
Definition response_of (K : Kernel) (w : Wire) : option Buffer :=
  Buffer_from <$>
    match readSync K w with
    | None => None
    | Some bytes =>
        let got := take 65 (Buffer_from bytes) in
        if decide (length got = 0%nat) then None else Some got
    end.

(** The set-topology packets of a topology, in the order of its entries. *)
Definition topology_packets (o : gmap N Z) : list Buffer :=
  (λ entry, Protocol.setLEDCount_packet (Z.of_N entry.1) entry.2)
    <$> Safe.Object_entries o.

Definition key_lt (x y : N * Z) : Prop := (x.1 < y.1)%N.

(** The topologies whose channel keys are array indices, below 2^32 - 1:
    the keys that [Object.entries] enumerates in ascending order and that
    [parseInt] reads back exactly. Larger integer keys are enumerated in
    insertion order, which a [gmap] does not record, so the order of the
    set-topology commands is stated for such topologies only. *)
Definition array_indexed (o : gmap N Z) : Prop :=
  map_Forall (λ channel _, (channel < 2 ^ 32 - 1)%N) o.

(** The LED count [setAllLEDs] fills: [this.topology[channel] || 16]. *)
Definition fill_count (o : gmap N Z) (channel : Z) : Z :=
  match Safe.Object_get o channel with
  | Some n => if decide (n = 0) then 16 else n
  | None => 16
  end.

(** Concrete sessions for the worked examples: a protocol object with an
    open handle, a controller in a given state, a device whose configuration
    table reads (15, 15, 16). *)
Definition plugged : Protocol.AuraProtocol :=
  {| Protocol.device := Some {| HID.path := "/dev/hidraw0"; HID.fd := Some 3 |} |}.

Definition session (st : States) (o : gmap N Z) : Safe.SafeAuraController :=
  {| Safe.protocol := plugged; Safe.state := st; Safe.topology := o |}.

Definition healthy : Kernel := answering (config_response 15 15 16).

(** A device that takes writes and never answers a read. *)
Definition silent : Kernel :=
  {| findAuraDevice := Some "/dev/hidraw0"%string;
     openSync := λ _, Opened 3;
     writeSync := λ _ buffer, Some (length buffer);
     readSync := λ _, None |}.

(** An operation's result is a throw of the state-error kind. *)
Definition fails_with_StateError {A S} (outcome : Result A * S) : Prop :=
  ∃ e, outcome.1 = Throw e ∧ kind e = StateError.

(** More devices for the worked examples: none plugged in, one whose
    handle is file descriptor 0, one that takes only [n] bytes of a write. *)
Definition absent : Kernel :=
  {| findAuraDevice := None;
     openSync := λ _, ENOENT;
     writeSync := λ _ buffer, Some (length buffer);
     readSync := λ _, None |}.

Definition on_fd_zero : Kernel :=
  {| findAuraDevice := Some "/dev/hidraw0"%string;
     openSync := λ _, Opened 0;
     writeSync := λ _ buffer, Some (length buffer);
     readSync := λ _, Some (config_response 15 15 16) |}.

Definition short_writer (n : nat) : Kernel :=
  {| findAuraDevice := Some "/dev/hidraw0"%string;
     openSync := λ _, Opened 3;
     writeSync := λ _ _, Some n;
     readSync := λ _, Some (config_response 15 15 16) |}.

(** A device that answers every read with the two prefix bytes only. *)
Definition truncated : Kernel := answering [0xEC; 0x30].

(** The verdict of [isBricked] on three channel counts that are present. *)
Definition bricked_counts (c0 c1 c2 : Z) : bool :=
  bool_decide ((c0 = 0 ∨ c1 = 0 ∨ c2 = 0) ∨ (c0 = c1 ∧ c1 = c2 ∧ c0 ≠ 15)).

(** ** tools/unbrick-all.js *)

Module Tools.
Section WithKernel.
Context (K : Kernel).

(** The body of the script, run on [new SafeAuraController({ verbose: true })];
    its value is the exit code of the process: 1 from the [catch], 0 when
    the script runs to its end. *)
Definition unbrick_all : M Safe.Store Z :=
  try_catch
    (let* _ := Safe.connect K in
     let* before := Safe.getConfig K in
     let* bricked := Safe.isBricked K in
     let* _ := (if (bricked : bool)
                then let* success := Safe.unbrick K None in ret tt
                else ret tt) in
     let* _ := Safe.disconnect in
     ret 0)
    (λ error, ret 1).

End WithKernel.
End Tools.

(** ** Sequences of calls *)

(** The public methods of [SafeAuraController], as a caller invokes them. *)
Inductive Call :=
| Connect
| Disconnect
| InitTopology
| SetLED (channel ledIndex r g b : Z)
| SetAllLEDs (channel r g b : Z)
| SetEffect (channel mode : Z) (r g b brightness : option Z)
| Commit
| GetConfig
| GetState
| IsBricked
| Unbrick (targetTopology : option (gmap N Z)).

(** One call, its value dropped. *)
Definition call (K : Kernel) (c : Call) : M Safe.Store unit :=
  match c with
  | Connect => Safe.connect K
  | Disconnect => Safe.disconnect
  | InitTopology => Safe.initTopology K
  | SetLED channel ledIndex r g b => Safe.setLED K channel ledIndex r g b
  | SetAllLEDs channel r g b => Safe.setAllLEDs K channel r g b
  | SetEffect channel mode r g b brightness =>
      Safe.setEffect K channel mode r g b brightness
  | Commit => Safe.commit K
  | GetConfig => let* _ := Safe.getConfig K in ret tt
  | GetState => let* _ := Safe.getState in ret tt
  | IsBricked => let* _ := Safe.isBricked K in ret tt
  | Unbrick targetTopology => let* _ := Safe.unbrick K targetTopology in ret tt
  end.

(** The store after a sequence of calls, each exception caught by the
    caller. *)
Definition after (K : Kernel) (calls : list Call) (s : Safe.Store) : Safe.Store :=
  foldl (λ s c, (call K c s).2) s calls.

(** The tracked state says [DISCONNECTED] exactly when no handle is held. *)
Definition tracks_handle (c : Safe.SafeAuraController) : Prop :=
  Safe.state c = DISCONNECTED ↔ Protocol.device (Safe.protocol c) = None.

(** What a call other than [connect] and [disconnect] may do to the
    controller: the handle and the topology stay, and the state moves only
    between connected states. *)
Definition steady (c c' : Safe.SafeAuraController) : Prop :=
  Safe.protocol c' = Safe.protocol c ∧
  Safe.topology c' = Safe.topology c ∧
  (Safe.state c' = Safe.state c ∨
   (Safe.state c ≠ DISCONNECTED ∧ Safe.state c' ≠ DISCONNECTED)).

(** * Properties of the codec *)

Module CodecFacts.
Import Protocol.

Lemma ToUint8_range v : 0 ≤ ToUint8 v < 256.
Proof. unfold ToUint8. apply Z.mod_pos_bound. lia. Qed.

Lemma ToUint8_small v : 0 ≤ v < 256 → ToUint8 v = v.
Proof. intros. unfold ToUint8. apply Z.mod_small. lia. Qed.

Lemma Buffer_from_bytes buf : is_bytes buf → Buffer_from buf = buf.
Proof.
  unfold Buffer_from. induction 1 as [|v buf Hv _ IH]; csimpl; [done|].
  by rewrite ToUint8_small, IH.
Qed.

Lemma is_bytes_Buffer_from data : is_bytes (Buffer_from data).
Proof.
  unfold is_bytes, Buffer_from. apply Forall_fmap, Forall_true.
  intros v. apply ToUint8_range.
Qed.

Lemma is_bytes_set buf i v : is_bytes buf → is_bytes (Buffer_set buf i v).
Proof.
  intros Hb. unfold Buffer_set, is_bytes.
  destruct (decide (i < length buf)%nat) as [Hi|Hi].
  - apply Forall_insert; [done | apply ToUint8_range].
  - by rewrite list_insert_ge by lia.
Qed.

Lemma is_bytes_triplets colors : is_bytes (triplets colors).
Proof.
  unfold triplets, is_bytes. induction colors as [|c colors IH]; csimpl.
  - constructor.
  - repeat (constructor; [apply ToUint8_range|]). exact IH.
Qed.

Lemma length_triplets colors : length (triplets colors) = (3 * length colors)%nat.
Proof.
  unfold triplets. induction colors as [|c colors IH]; csimpl; [done|].
  rewrite IH. lia.
Qed.

Lemma triplets_snoc colors c : triplets (colors ++ [c]) = triplets colors ++ triplet c.
Proof. unfold triplets. rewrite bind_app. f_equal. Qed.

(** The fixed-field packets, byte by byte. *)
Lemma getConfig_packet_eq : getConfig_packet = [0xEC; 0xB0] ++ replicate 63 0.
Proof. reflexivity. Qed.

Lemma setLEDCount_packet_eq channel count :
  setLEDCount_packet channel count =
  [0xEC; 0x52; 0x53; ToUint8 channel; ToUint8 count] ++ replicate 60 0.
Proof. reflexivity. Qed.

Lemma commit_packet_eq : commit_packet = [0xEC; 0x3F; 0x55] ++ replicate 62 0.
Proof. reflexivity. Qed.

Lemma setEffect_packet_eq channel mode r g b brightness :
  setEffect_packet channel mode r g b brightness =
  [0xEC; 0x35; ToUint8 channel; ToUint8 mode; ToUint8 r; ToUint8 g; ToUint8 b;
   ToUint8 brightness] ++ replicate 57 0.
Proof. reflexivity. Qed.

(** The loop of [setDirectLED] after [m] turns. *)
Lemma insert_middle (h t rest : list Z) (i j : nat) (x : Z) :
  i = (length h + length t + j)%nat →
  <[i := x]> (h ++ t ++ rest) = h ++ t ++ <[j := x]> rest.
Proof.
  intros ->.
  rewrite insert_app_r_alt by lia. f_equal.
  rewrite insert_app_r_alt by lia. f_equal.
  f_equal. lia.
Qed.

Lemma setDirectLED_loop (header : list Z) (colors : list Color.t) (m : nat) :
  length header = 5%nat → (m ≤ 20)%nat → (m ≤ length colors)%nat →
  foldl (setDirectLED_step colors) (header ++ replicate 60 0) (seq 0 m) =
  header ++ triplets (take m colors) ++ replicate (60 - 3 * m) 0.
Proof.
  intros Hh. induction m as [|m IH]; intros H20 Hlen.
  - reflexivity.
  - rewrite seq_S, foldl_app, IH by lia. cbn [foldl Nat.add].
    destruct (lookup_lt_is_Some_2 colors m) as [c Hc]; [lia|].
    unfold setDirectLED_step. rewrite Hc.
    rewrite (take_S_r _ _ _ Hc), triplets_snoc.
    replace (60 - 3 * m)%nat with (3 + (60 - 3 * S m))%nat by lia.
    simpl replicate. unfold Buffer_set.
    assert (Ht : length (triplets (take m colors)) = (3 * m)%nat).
    { rewrite length_triplets, length_take. lia. }
    rewrite (insert_middle _ _ _ _ 0) by (rewrite Hh, Ht; lia).
    rewrite (insert_middle _ _ _ _ 1) by (rewrite Hh, Ht; lia).
    rewrite (insert_middle _ _ _ _ 2) by (rewrite Hh, Ht; lia).
    simpl. by rewrite <- (assoc_L (++) (triplets _)).
Qed.

Lemma setDirectLED_packet_eq channel offset colors :
  setDirectLED_packet channel offset colors =
  [0xEC; 0x40; ToUint8 (Z.lor 0x80 channel); ToUint8 offset;
   ToUint8 (Z.of_nat (length colors))]
  ++ triplets (take 20 colors)
  ++ replicate (60 - 3 * (length colors `min` 20)) 0.
Proof.
  unfold setDirectLED_packet.
  pose proof (setDirectLED_loop
    [0xEC; 0x40; ToUint8 (Z.lor 0x80 channel); ToUint8 offset;
     ToUint8 (Z.of_nat (length colors))] colors (length colors `min` 20)
    eq_refl) as Hloop.
  etrans; [apply Hloop; lia|].
  do 2 f_equal.
  destruct (decide (length colors ≤ 20)%nat) as [Hle|Hgt].
  - rewrite Nat.min_l by lia. by rewrite !take_ge by lia.
  - by rewrite Nat.min_r by lia.
Qed.

(** Packets of the shape header-then-zeros are well formed. *)
Lemma well_formed_header (header : list Z) (n : nat) :
  header !! 0%nat = Some 0xEC → (length header + n = 65)%nat →
  well_formed (length header) (header ++ replicate n 0).
Proof.
  intros H0 Hlen. split; [|split].
  - rewrite length_app, length_replicate. lia.
  - by rewrite lookup_app_l by (apply lookup_lt_Some in H0; lia).
  - intros i Hi. rewrite lookup_app_r by lia.
    apply lookup_replicate_2. lia.
Qed.


Lemma is_bytes_createPacket : is_bytes createPacket.
Proof. apply Forall_replicate. lia. Qed.

Lemma is_bytes_setDirectLED_packet channel offset colors :
  is_bytes (setDirectLED_packet channel offset colors).
Proof.
  rewrite setDirectLED_packet_eq. unfold is_bytes.
  rewrite !Forall_app. split; [|split].
  - repeat (constructor; [first [apply ToUint8_range | lia]|]). constructor.
  - apply is_bytes_triplets.
  - apply Forall_replicate. lia.
Qed.

Lemma length_setDirectLED_packet channel offset colors :
  length (setDirectLED_packet channel offset colors) = 65%nat.
Proof.
  rewrite setDirectLED_packet_eq, !length_app, length_triplets, length_take,
    length_replicate. cbn [length]. lia.
Qed.

(** C9: every packet the codec builds (read-config, set-topology, commit,
    set-effect, direct-colour) is 65 bytes long, starts with the prefix
    [0xEC], and is zero at every byte the command's fields do not write:
    from byte 2, 5, 3, 8 and [5 + 3 * min(n, 20)] on, respectively. *)
Theorem packets_well_formed :
  well_formed 2 getConfig_packet ∧
  (∀ channel count, well_formed 5 (setLEDCount_packet channel count)) ∧
  well_formed 3 commit_packet ∧
  (∀ channel mode r g b brightness,
     well_formed 8 (setEffect_packet channel mode r g b brightness)) ∧
  (∀ channel offset colors,
     well_formed (5 + 3 * (length colors `min` 20))
       (setDirectLED_packet channel offset colors)).
Proof.
  repeat split_and.
  - rewrite getConfig_packet_eq. by apply (well_formed_header [_; _]).
  - intros. rewrite setLEDCount_packet_eq.
    by apply (well_formed_header [_; _; _; _; _]).
  - rewrite commit_packet_eq. by apply (well_formed_header [_; _; _]).
  - intros. rewrite setEffect_packet_eq.
    by apply (well_formed_header [_; _; _; _; _; _; _; _]).
  - intros channel offset colors. rewrite setDirectLED_packet_eq.
    rewrite (assoc_L (++)).
    pose proof (length_triplets (take 20 colors)) as Ht.
    rewrite length_take in Ht.
    replace (5 + 3 * (length colors `min` 20))%nat
      with (length ([0xEC; 0x40; ToUint8 (Z.lor 0x80 channel); ToUint8 offset;
                     ToUint8 (Z.of_nat (length colors))]
                    ++ triplets (take 20 colors)))
      by (rewrite length_app, Ht; cbn [length]; lia).
    apply well_formed_header; [done|].
    rewrite length_app, Ht. cbn [length]. lia.
Qed.

(** The triplets of a direct-colour packet: the first [min(n, 20)] colours
    from byte 5 on, zero after them; and its count byte. *)
Lemma setDirectLED_payload channel offset colors :
  drop 5 (setDirectLED_packet channel offset colors) =
  triplets (take 20 colors) ++ replicate (60 - 3 * (length colors `min` 20)) 0.
Proof. by rewrite setDirectLED_packet_eq. Qed.

Lemma setDirectLED_count_byte channel offset colors :
  setDirectLED_packet channel offset colors !! 4%nat =
  Some (ToUint8 (Z.of_nat (length colors))).
Proof. by rewrite setDirectLED_packet_eq. Qed.

(** C2: with 21 colours the packet carries the first 20 triplets, from byte
    5 to the last byte, while its count byte says 21. *)
Theorem setDirectLED_21_colors :
  let colors := replicate 21 (Color.rgb 1 2 3) in
  let packet := setDirectLED_packet 0 0 colors in
  packet !! 4%nat = Some 21 ∧
  drop 5 packet = triplets (take 20 colors) ∧
  length (take 20 colors) = 20%nat ∧
  length packet = 65%nat.
Proof. vm_compute. done. Qed.

(** C8: [decodeConfig] throws, and then a protocol error, exactly when the
    response is absent or does not start with [0xEC 0x30]; otherwise it
    returns the three channel counts read at offsets 0x0A, 0x10 and 0x16, so
    three bytes stored at those offsets of a response are read back. *)
Theorem decodeConfig_spec (response : option (list Z)) :
  ((∃ e, decodeConfig response = Throw e) ↔
     response = None ∨
     ∃ bytes, response = Some bytes ∧
       (bytes !! 0%nat ≠ Some 0xEC ∨ bytes !! 1%nat ≠ Some 0x30)) ∧
  (∀ e, decodeConfig response = Throw e → kind e = ProtocolError) ∧
  (∀ bytes, response = Some bytes →
     bytes !! 0%nat = Some 0xEC → bytes !! 1%nat = Some 0x30 →
     decodeConfig response =
       Ok {| raw := bytes; configBytes := bytes;
             channel0_leds := bytes !! 0x0A%nat;
             channel1_leds := bytes !! 0x10%nat;
             channel2_leds := bytes !! 0x16%nat |}) ∧
  (∀ bytes c0 c1 c2, response = Some bytes →
     bytes !! 0%nat = Some 0xEC → bytes !! 1%nat = Some 0x30 →
     (0x16 < length bytes)%nat →
     ∃ config,
       decodeConfig
         (Some (<[0x16%nat := c2]> (<[0x10%nat := c1]> (<[0x0A%nat := c0]> bytes))))
       = Ok config ∧
       channel0_leds config = Some c0 ∧
       channel1_leds config = Some c1 ∧
       channel2_leds config = Some c2).
Proof.
  unfold decodeConfig, Buffer_get. repeat split_and.
  - split.
    + intros [e He]. destruct response as [bytes|]; [|by left].
      right. exists bytes. split; [done|]. by case_decide.
    + intros [->|(bytes & -> & Hbad)]; [by eexists|].
      rewrite decide_True by done. by eexists.
  - intros e He. destruct response as [bytes|].
    + case_decide; [|done]. by inversion He.
    + by inversion He.
  - intros bytes -> H0 H1. rewrite decide_False; [done|]. intros [?|?]; done.
  - intros bytes c0 c1 c2 -> H0 H1 Hlen. eexists.
    rewrite decide_False.
    + split; [reflexivity|]. simpl.
      rewrite list_lookup_insert_eq by (rewrite !length_insert; lia).
      rewrite !list_lookup_insert_ne by lia.
      rewrite !list_lookup_insert_eq by (rewrite ?length_insert; lia).
      rewrite !list_lookup_insert_ne by lia.
      rewrite !list_lookup_insert_eq by (rewrite ?length_insert; lia).
      done.
    + rewrite !list_lookup_insert_ne by lia. intros [?|?]; done.
Qed.

Lemma decodeConfig_witness :
  ∃ config,
    decodeConfig (Some (<[0x16%nat := 16]> (<[0x10%nat := 15]> (<[0x0A%nat := 15]>
                          ([0xEC; 0x30] ++ replicate 63 0))))) = Ok config ∧
    channel0_leds config = Some 15 ∧
    channel1_leds config = Some 15 ∧
    channel2_leds config = Some 16.
Proof.
  apply (proj2 (proj2 (proj2
    (decodeConfig_spec (Some ([0xEC; 0x30] ++ replicate 63 0)))))
    ([0xEC; 0x30] ++ replicate 63 0) 15 15 16 eq_refl eq_refl eq_refl).
  simpl. lia.
Defined.

End CodecFacts.

(** * Properties of the session controller *)

Module SessionFacts.
Import Protocol Safe CodecFacts.

(** ** [Object.entries] *)

Global Instance key_le_transitive : Transitive key_le.
Proof. intros x y z. unfold key_le. lia. Qed.

Global Instance key_le_total : Total key_le.
Proof. intros x y. unfold key_le. lia. Qed.

Lemma Object_entries_perm (o : gmap N Z) : Object_entries o ≡ₚ map_to_list o.
Proof. apply merge_sort_Permutation. Qed.

Lemma Object_entries_lookup (o : gmap N Z) (channel : N) (count : Z) :
  (channel, count) ∈ Object_entries o ↔ o !! channel = Some count.
Proof. rewrite Object_entries_perm. apply elem_of_map_to_list. Qed.

Lemma sorted_nodup_strict (l : list (N * Z)) :
  StronglySorted key_le l → NoDup l.*1 → StronglySorted key_lt l.
Proof.
  induction 1 as [|x l Hl IH Hx]; intros Hnd; [constructor|].
  apply NoDup_cons in Hnd as [Hnotin Hnd].
  constructor; [by apply IH|].
  rewrite Forall_forall in Hx |- *. intros y Hy.
  specialize (Hx y Hy). unfold key_le in Hx. unfold key_lt.
  assert (x.1 ≠ y.1); [|lia].
  intros Heq. apply Hnotin. rewrite Heq. by apply list_elem_of_fmap_2.
Qed.

Lemma Object_entries_sorted (o : gmap N Z) : StronglySorted key_lt (Object_entries o).
Proof.
  apply sorted_nodup_strict.
  - apply StronglySorted_merge_sort; apply _.
  - rewrite Object_entries_perm. apply NoDup_fst_map_to_list.
Qed.

Section WithKernel.
Context (K : Kernel).

(** ** [sendPacket] *)

Lemma sendPacket_closed packet waitResponse p w :
  device p = None →
  sendPacket K packet waitResponse (p, w) = (Throw Not_connected, (p, w)).
Proof. intros Hd. unfold sendPacket, bind, get. simpl. by rewrite Hd. Qed.

Lemma sendPacket_write packet p w :
  accepting K → opened p → length packet = 65%nat → is_bytes packet →
  sendPacket K packet false (p, w) = (Ok None, (p, w ++ [packet])).
Proof.
  intros Hacc (d & Hd & Hfd) Hlen Hbytes.
  unfold sendPacket, bind, get. simpl. rewrite Hd.
  rewrite decide_False by (unfold PACKET_SIZE; lia).
  unfold io, HID.write. rewrite Hfd. simpl.
  rewrite Hacc, (Buffer_from_bytes _ Hbytes), firstn_all.
  by rewrite decide_False by (intros ?; done).
Qed.

Lemma sendPacket_read packet p w :
  accepting K → opened p → length packet = 65%nat → is_bytes packet →
  sendPacket K packet true (p, w) =
  (Ok (response_of K (w ++ [packet])), (p, w ++ [packet])).
Proof.
  intros Hacc (d & Hd & Hfd) Hlen Hbytes.
  unfold sendPacket, bind, get. simpl. rewrite Hd.
  rewrite decide_False by (unfold PACKET_SIZE; lia).
  unfold io, HID.write, HID.readTimeout, response_of. rewrite Hfd. simpl.
  rewrite Hacc, (Buffer_from_bytes _ Hbytes), firstn_all.
  rewrite decide_False by (intros ?; done). simpl.
  destruct (readSync K (w ++ [packet])) as [bytes|]; [|done].
  by case_decide.
Qed.

Lemma sendPacket_error_kind packet waitResponse s e s' :
  sendPacket K packet waitResponse s = (Throw e, s') → kind e = OtherError.
Proof.
  unfold sendPacket, bind, get. simpl.
  destruct (device s.1) as [d|]; [|by intros [= <- _]].
  case_decide; [by intros [= <- _]|].
  unfold io, HID.write, HID.readTimeout.
  destruct (HID.fd_falsy d); simpl; [by intros [= <- _]|].
  destruct (writeSync K s.2 (Buffer_from packet)) as [written|];
    [|by intros [= <- _]].
  case_decide; [by intros [= <- _]|].
  destruct waitResponse; [|done].
  destruct (readSync K _) as [bytes|]; [|done].
  by case_decide.
Qed.

(** ** Calls through [this.protocol] *)

Lemma with_protocol_id c : with_protocol (protocol c) c = c.
Proof. by destruct c. Qed.


(** A command that is one [sendPacket] without a response. *)
Lemma call_send packet c w :
  accepting K → opened (protocol c) → length packet = 65%nat → is_bytes packet →
  on_protocol (let* _ := sendPacket K packet false in ret tt) (c, w) =
  (Ok tt, (c, w ++ [packet])).
Proof.
  intros Hacc Hopen Hlen Hbytes. unfold on_protocol, bind. simpl.
  rewrite sendPacket_write by done. simpl. by rewrite with_protocol_id.
Qed.

Lemma call_send_closed packet c w :
  device (protocol c) = None →
  on_protocol (let* _ := sendPacket K packet false in ret tt) (c, w) =
  (Throw Not_connected, (c, w)).
Proof.
  intros Hd. unfold on_protocol, bind. simpl.
  rewrite sendPacket_closed by done. simpl. by rewrite with_protocol_id.
Qed.

Lemma call_send_error_kind packet s e s' :
  on_protocol (let* _ := sendPacket K packet false in ret tt) s = (Throw e, s') →
  kind e = OtherError.
Proof.
  unfold on_protocol, bind.
  destruct (sendPacket K packet false (protocol s.1, s.2)) as [[r|e'] pw] eqn:Hs;
    simpl; [done|].
  intros [= <- _]. by eapply sendPacket_error_kind.
Qed.

Lemma is_bytes_setLEDCount_packet channel count :
  is_bytes (setLEDCount_packet channel count).
Proof. repeat apply is_bytes_set. apply is_bytes_createPacket. Qed.

Lemma is_bytes_commit_packet : is_bytes commit_packet.
Proof. repeat apply is_bytes_set. apply is_bytes_createPacket. Qed.

Lemma is_bytes_getConfig_packet : is_bytes getConfig_packet.
Proof. repeat apply is_bytes_set. apply is_bytes_createPacket. Qed.

Lemma is_bytes_setEffect_packet channel mode r g b brightness :
  is_bytes (setEffect_packet channel mode r g b brightness).
Proof. repeat apply is_bytes_set. apply is_bytes_createPacket. Qed.

Lemma call_getConfig c w :
  accepting K → opened (protocol c) →
  on_protocol (Protocol.getConfig K) (c, w) =
  (decodeConfig (response_of K (w ++ [getConfig_packet])),
   (c, w ++ [getConfig_packet])).
Proof.
  intros Hacc Hopen. unfold on_protocol, Protocol.getConfig, bind. simpl.
  rewrite sendPacket_read by (done || apply is_bytes_getConfig_packet).
  unfold of_result. simpl. by rewrite with_protocol_id.
Qed.


(** ** The loop that sends the topology *)

Lemma topology_loop_ok entries c w :
  accepting K → opened (protocol c) →
  for_of entries (send_entry K) (c, w) =
  (Ok tt, (c, w ++ ((λ entry, setLEDCount_packet (Z.of_N entry.1) entry.2) <$> entries))).
Proof.
  intros Hacc Hopen. revert w.
  induction entries as [|entry entries IH]; intros w; simpl.
  - unfold ret. by rewrite app_nil_r.
  - unfold bind, send_entry at 1, Protocol.setLEDCount.
    rewrite call_send by (done || apply is_bytes_setLEDCount_packet).
    rewrite IH. by rewrite <- (assoc_L (++)).
Qed.


Lemma topology_loop_error_kind entries s e s' :
  for_of entries (send_entry K) s = (Throw e, s') → kind e = OtherError.
Proof.
  revert s. induction entries as [|entry entries IH]; intros s; simpl; [done|].
  unfold bind. destruct (send_entry K entry s) as [[[]|e1] s1] eqn:H1.
  - apply IH.
  - intros [= <- _]. by eapply call_send_error_kind.
Qed.

Lemma topology_loop_closed entries c w :
  device (protocol c) = None → entries ≠ [] →
  for_of entries (send_entry K) (c, w) = (Throw Not_connected, (c, w)).
Proof.
  intros Hd Hne. destruct entries as [|entry entries]; [done|]. simpl.
  unfold bind, send_entry, Protocol.setLEDCount.
  by rewrite call_send_closed.
Qed.

(** ** [initTopology] and the guard [_ensureRuntime] *)

Lemma with_state_id c : with_state (state c) c = c.
Proof. by destruct c. Qed.

Lemma initTopology_disconnected c w :
  state c = DISCONNECTED →
  initTopology K (c, w) = (Throw BSM_init_while_disconnected, (c, w)).
Proof.
  intros Hs. unfold initTopology, bind, this. simpl.
  by rewrite decide_True by done.
Qed.

Lemma initTopology_ok c w :
  state c ≠ DISCONNECTED → accepting K → opened (protocol c) →
  initTopology K (c, w) =
  (Ok tt, (with_state RUNTIME c, w ++ topology_packets (topology c))).
Proof.
  intros Hs Hacc Hopen. unfold initTopology, bind, this. simpl.
  rewrite decide_False by done.
  by rewrite topology_loop_ok by done.
Qed.

Lemma initTopology_returns s s' :
  initTopology K s = (Ok tt, s') → state s'.1 = RUNTIME.
Proof.
  unfold initTopology, bind, this. simpl. case_decide; [done|].
  destruct (for_of _ _ s) as [[[]|e] s1]; [|done].
  by intros [= <-].
Qed.

Lemma initTopology_error_kind s e s' :
  state s.1 ≠ DISCONNECTED →
  initTopology K s = (Throw e, s') → kind e = OtherError.
Proof.
  intros Hs. unfold initTopology, bind, this. simpl.
  rewrite decide_False by done.
  destruct (for_of _ _ s) as [[[]|e1] s1] eqn:Hloop; [done|].
  intros [= <- _]. by eapply topology_loop_error_kind.
Qed.

Lemma ensureRuntime_disconnected c w :
  state c = DISCONNECTED →
  _ensureRuntime K (c, w) = (Throw BSM_not_connected, (c, w)).
Proof.
  intros Hs. unfold _ensureRuntime, bind, this. simpl.
  by rewrite decide_True by done.
Qed.

Lemma ensureRuntime_locked c w :
  state c = LOCKED → accepting K → opened (protocol c) →
  _ensureRuntime K (c, w) =
  (Ok tt, (with_state RUNTIME c, w ++ topology_packets (topology c))).
Proof.
  intros Hs Hacc Hopen. unfold _ensureRuntime, bind, this. simpl.
  rewrite decide_False by congruence. rewrite decide_True by done.
  apply initTopology_ok; [congruence|done..].
Qed.

Lemma ensureRuntime_ready c w :
  state c ≠ DISCONNECTED → state c ≠ LOCKED →
  _ensureRuntime K (c, w) = (Ok tt, (c, w)).
Proof.
  intros Hd Hl. unfold _ensureRuntime, bind, this. simpl.
  by rewrite !decide_False by done.
Qed.

Lemma ensureRuntime_error_kind s e s' :
  state s.1 ≠ DISCONNECTED →
  _ensureRuntime K s = (Throw e, s') → kind e = OtherError.
Proof.
  intros Hs. unfold _ensureRuntime, bind, this. simpl.
  rewrite decide_False by done. case_decide; [|done].
  by apply initTopology_error_kind.
Qed.

(** An operation behind the guard throws a state error only while
    disconnected, provided what follows the guard throws none. *)
Lemma guarded_error_kind (rest : M (SafeAuraController * list (list Z)) unit) s e s' :
  (∀ s1 e1 s2, rest s1 = (Throw e1, s2) → kind e1 = OtherError) →
  state s.1 ≠ DISCONNECTED →
  (let* _ := _ensureRuntime K in rest) s = (Throw e, s') →
  kind e = OtherError.
Proof.
  intros Hrest Hs. unfold bind.
  destruct (_ensureRuntime K s) as [[[]|e1] s1] eqn:Hguard.
  - apply Hrest.
  - intros [= <- _]. by eapply ensureRuntime_error_kind.
Qed.

Lemma guarded_disconnected (rest : M (SafeAuraController * list (list Z)) unit) c w :
  state c = DISCONNECTED →
  (let* _ := _ensureRuntime K in rest) (c, w) = (Throw BSM_not_connected, (c, w)).
Proof. intros Hs. unfold bind. by rewrite ensureRuntime_disconnected. Qed.

(** ** The operations of the state machine *)

(** C5: [initTopology] throws a state error while disconnected. In a
    connected session whose transport takes the writes, with a topology of
    array-index channels, it sends exactly one set-topology command
    [EC 52 53 channel count] (zero-padded to 65 bytes) per (channel, count)
    pair of the configured topology, in ascending channel order, and leaves
    the state [RUNTIME]. Run twice in a row from [RUNTIME] it leaves the
    state [RUNTIME] and the topology as it was, sending the same commands
    again. *)
Theorem initTopology_spec c w :
  let command := λ entry : N * Z,
    [0xEC; 0x52; 0x53; Z.of_N entry.1 mod 256; entry.2 mod 256] ++ replicate 60 0 in
  (state c = DISCONNECTED →
     initTopology K (c, w) = (Throw BSM_init_while_disconnected, (c, w)) ∧
     fails_with_StateError (initTopology K (c, w))) ∧
  (state c ≠ DISCONNECTED → accepting K → opened (protocol c) →
   array_indexed (topology c) →
     ∃ entries : list (N * Z),
       entries ≡ₚ map_to_list (topology c) ∧
       StronglySorted key_lt entries ∧
       initTopology K (c, w) =
         (Ok tt, (with_state RUNTIME c, w ++ (command <$> entries))) ∧
       (state c = RUNTIME →
          initTopology K (c, w) = (Ok tt, (c, w ++ (command <$> entries))) ∧
          initTopology K (c, w ++ (command <$> entries)) =
            (Ok tt, (c, w ++ (command <$> entries) ++ (command <$> entries))))) ∧
  (state c = RUNTIME → accepting K → opened (protocol c) →
     ∃ w1 w2,
       initTopology K (c, w) = (Ok tt, (c, w1)) ∧
       initTopology K (c, w1) = (Ok tt, (c, w2))).
Proof.
  intros command.
  assert (Hcommands : command <$> Object_entries (topology c)
                      = topology_packets (topology c)) by reflexivity.
  repeat split_and.
  - intros Hs. rewrite initTopology_disconnected by done.
    split; [done|]. by eexists.
  - intros Hs Hacc Hopen _. exists (Object_entries (topology c)).
    split; [apply Object_entries_perm|].
    split; [apply Object_entries_sorted|].
    rewrite Hcommands.
    split; [by apply initTopology_ok|].
    intros Hr.
    assert (Hid : with_state RUNTIME c = c) by (rewrite <- Hr; apply with_state_id).
    rewrite !initTopology_ok, Hid by done.
    by rewrite <- (assoc_L (++)).
  - intros Hs Hacc Hopen.
    assert (Hid : with_state RUNTIME c = c) by (rewrite <- Hs; apply with_state_id).
    exists (w ++ topology_packets (topology c)),
           ((w ++ topology_packets (topology c)) ++ topology_packets (topology c)).
    by rewrite !initTopology_ok, Hid by (done || congruence).
Qed.

(** C6: a [connect] that returns has opened the device, passed through
    [LOCKED] and run [initTopology] from there; the state it leaves is
    [RUNTIME]. *)
Theorem connect_reaches_runtime s s' :
  connect K s = (Ok tt, s') →
  state s'.1 = RUNTIME ∧
  ∃ s1, on_protocol (Protocol.connect K) s = (Ok tt, s1) ∧
        initTopology K (with_state LOCKED s1.1, s1.2) = (Ok tt, s').
Proof.
  unfold connect, bind.
  destruct (on_protocol (Protocol.connect K) s) as [[[]|e] s1] eqn:Hopen; [|done].
  unfold set_state at 1. intros Hinit.
  split; [by eapply initTopology_returns|].
  by exists s1.
Qed.

(** C1 (as the code has it): [commit] throws a state error exactly when the
    state is not [RUNTIME] (so also from [COMMITTED]), sending nothing and
    leaving the session as it was; from [RUNTIME], on a transport that takes
    the write, it sends the commit packet and leaves the state [COMMITTED]. *)
Theorem commit_spec c w :
  (fails_with_StateError (commit K (c, w)) ↔ state c ≠ RUNTIME) ∧
  (state c ≠ RUNTIME →
     commit K (c, w) = (Throw (BSM_cannot_commit (state c)), (c, w))) ∧
  (state c = RUNTIME → accepting K → opened (protocol c) →
     commit K (c, w) = (Ok tt, (with_state COMMITTED c, w ++ [commit_packet]))).
Proof.
  assert (Hthrow : state c ≠ RUNTIME →
            commit K (c, w) = (Throw (BSM_cannot_commit (state c)), (c, w))).
  { intros Hs. unfold commit, bind, this. simpl. by rewrite decide_True by done. }
  repeat split_and; [|done|].
  - split.
    + intros (e & He & Hk) Hs. unfold commit, bind, this in He. simpl in He.
      rewrite decide_False in He by (intros ?; done).
      destruct (on_protocol (Protocol.commit K) (c, w)) as [[[]|e1] s1] eqn:Hc;
        simpl in He; [done|].
      injection He as <-.
      apply call_send_error_kind in Hc. congruence.
    + intros Hs. rewrite Hthrow by done. by eexists.
  - intros Hs Hacc Hopen. unfold commit, bind, this. simpl.
    rewrite decide_False by (intros ?; done).
    unfold Protocol.commit.
    by rewrite call_send by (done || apply is_bytes_commit_packet).
Qed.

(** What follows the guard in the colour and effect operations throws no
    state error. *)
Lemma setAllLEDs_tail_error_kind channel r g b s1 e1 s2 :
  (let* self := this in
   let count :=
     match Object_get (topology self) channel with
     | Some n => if decide (n = 0) then 16 else n
     | None => 16
     end in
   if decide (count < 0 ∨ 2 ^ 32 ≤ count) then throw RangeError_array_length
   else
     let colors := replicate (Z.to_nat count) (Color.rgb r g b) in
     on_protocol (Protocol.setDirectLED K channel 0 colors)) s1 = (Throw e1, s2) →
  kind e1 = OtherError.
Proof.
  unfold bind, this. simpl. case_decide.
  - by intros [= <- _].
  - apply call_send_error_kind.
Qed.

Lemma guarded_op_state_error (rest : M (SafeAuraController * list (list Z)) unit) c w :
  (∀ s1 e1 s2, rest s1 = (Throw e1, s2) → kind e1 = OtherError) →
  (fails_with_StateError ((let* _ := _ensureRuntime K in rest) (c, w)) ↔
     state c = DISCONNECTED) ∧
  (state c = DISCONNECTED →
     (let* _ := _ensureRuntime K in rest) (c, w) = (Throw BSM_not_connected, (c, w))).
Proof.
  intros Hrest. split; [split|].
  - intros (e & He & Hk). destruct (decide (state c = DISCONNECTED)) as [|Hs]; [done|].
    destruct ((let* _ := _ensureRuntime K in rest) (c, w)) as [res s'] eqn:Hop.
    simpl in He. subst res.
    apply guarded_error_kind in Hop; [congruence|done..].
  - intros Hs. rewrite guarded_disconnected by done. by eexists.
  - apply guarded_disconnected.
Qed.

(** C7: each of [setLED], [setAllLEDs] and [setEffect] throws a state error
    exactly when the session is disconnected; from [LOCKED], on a transport
    that takes the writes, it first sends the topology (reaching [RUNTIME])
    and then its own packet ([setAllLEDs] granted a fill count that is an
    array length). *)
Theorem color_ops_guard c w channel ledIndex mode r g b er eg eb brightness :
  let color := Color.rgb r g b in
  let ops := [setLED K channel ledIndex r g b;
              setAllLEDs K channel r g b;
              setEffect K channel mode er eg eb brightness] in
  (∀ op, op ∈ ops →
     (fails_with_StateError (op (c, w)) ↔ state c = DISCONNECTED) ∧
     (state c = DISCONNECTED → op (c, w) = (Throw BSM_not_connected, (c, w)))) ∧
  (state c = LOCKED → accepting K → opened (protocol c) →
     let c1 := with_state RUNTIME c in
     let w1 := w ++ topology_packets (topology c) in
     setLED K channel ledIndex r g b (c, w) =
       (Ok tt, (c1, w1 ++ [setDirectLED_packet channel ledIndex [color]])) ∧
     setEffect K channel mode er eg eb brightness (c, w) =
       (Ok tt, (c1, w1 ++ [setEffect_packet channel mode (default 0 er)
                             (default 0 eg) (default 0 eb) (default 0xFF brightness)])) ∧
     (0 ≤ fill_count (topology c) channel < 2 ^ 32 →
      setAllLEDs K channel r g b (c, w) =
        (Ok tt, (c1, w1 ++ [setDirectLED_packet channel 0
                   (replicate (Z.to_nat (fill_count (topology c) channel)) color)])))).
Proof.
  intros color ops. split.
  - intros op Hop. unfold ops in Hop.
    rewrite !elem_of_cons, elem_of_nil in Hop.
    destruct Hop as [->|[->|[->|[]]]].
    + apply guarded_op_state_error. intros s1 e1 s2. apply call_send_error_kind.
    + apply guarded_op_state_error. intros s1 e1 s2. apply setAllLEDs_tail_error_kind.
    + apply guarded_op_state_error. intros s1 e1 s2. apply call_send_error_kind.
  - intros Hs Hacc Hopen c1 w1. repeat split_and.
    + unfold setLED, bind. rewrite ensureRuntime_locked by done.
      unfold Protocol.setDirectLED.
      by rewrite call_send by
        (done || apply length_setDirectLED_packet || apply is_bytes_setDirectLED_packet).
    + unfold setEffect, bind. rewrite ensureRuntime_locked by done.
      unfold Protocol.setEffect.
      by rewrite call_send by (done || apply is_bytes_setEffect_packet).
    + intros Hcount. unfold setAllLEDs, bind. rewrite ensureRuntime_locked by done.
      unfold this. simpl. fold (fill_count (topology c) channel).
      rewrite decide_False by lia.
      unfold Protocol.setDirectLED.
      by rewrite call_send by
        (done || apply length_setDirectLED_packet || apply is_bytes_setDirectLED_packet).
Qed.

(** C10: for a channel the topology does not list, or lists with count 0,
    [setAllLEDs] in a connected session on a transport that takes the writes
    does not throw: after the topology packets the guard sends from
    [LOCKED], it sends one direct-colour packet, with count byte 16 and 16
    copies of the colour. *)
Theorem setAllLEDs_fallback c w channel r g b :
  accepting K → opened (protocol c) → state c ≠ DISCONNECTED →
  Object_get (topology c) channel = None ∨
  Object_get (topology c) channel = Some 0 →
  let color := Color.rgb r g b in
  let packet := setDirectLED_packet channel 0 (replicate 16 color) in
  setAllLEDs K channel r g b (c, w) =
    (Ok tt,
     (if decide (state c = LOCKED) then with_state RUNTIME c else c,
      w ++ (if decide (state c = LOCKED) then topology_packets (topology c) else [])
        ++ [packet])) ∧
  packet = [0xEC; 0x40; ToUint8 (Z.lor 0x80 channel); 0; 16]
           ++ triplets (replicate 16 color) ++ replicate 12 0.
Proof.
  intros Hacc Hopen Hs Hentry color packet. split.
  - assert (Hcount : fill_count (topology c) channel = 16).
    { unfold fill_count. by destruct Hentry as [-> | ->]. }
    unfold setAllLEDs, bind.
    destruct (decide (state c = LOCKED)) as [Hl|Hl].
    + rewrite ensureRuntime_locked by done.
      unfold this. simpl. fold (fill_count (topology c) channel).
      rewrite Hcount. rewrite decide_False by lia.
      unfold Protocol.setDirectLED.
      rewrite call_send by
        (done || apply length_setDirectLED_packet || apply is_bytes_setDirectLED_packet).
      by rewrite <- (assoc_L (++)).
    + rewrite ensureRuntime_ready by done.
      unfold this. simpl. fold (fill_count (topology c) channel).
      rewrite Hcount. rewrite decide_False by lia.
      unfold Protocol.setDirectLED.
      by rewrite call_send by
        (done || apply length_setDirectLED_packet || apply is_bytes_setDirectLED_packet).
  - unfold packet. rewrite setDirectLED_packet_eq. reflexivity.
Qed.

(** ** Brick detection and recovery *)

Lemma getConfig_connected c w :
  state c ≠ DISCONNECTED → accepting K → opened (protocol c) →
  getConfig K (c, w) =
  (decodeConfig (response_of K (w ++ [getConfig_packet])),
   (c, w ++ [getConfig_packet])).
Proof.
  intros Hs Hacc Hopen. unfold getConfig, bind, this. simpl.
  rewrite decide_False by done. by apply call_getConfig.
Qed.

Lemma bricked_consequences (bricked : bool) (c0 c1 c2 : Z) :
  (bricked = true ↔ (c0 = 0 ∨ c1 = 0 ∨ c2 = 0) ∨ (c0 = c1 ∧ c1 = c2 ∧ c0 ≠ 15)) →
  (bricked = true ↔ (c0 = 0 ∨ c1 = 0 ∨ c2 = 0) ∨ (c0 = c1 ∧ c1 = c2 ∧ c0 ≠ 15)) ∧
  (c0 = 0 ∨ c1 = 0 ∨ c2 = 0 → bricked = true) ∧
  ((c0, c1, c2) = (5, 5, 5) → bricked = true) ∧
  ((c0, c1, c2) = (15, 15, 16) → bricked = false).
Proof.
  intros Hiff. split; [exact Hiff|]. repeat split_and.
  - intros Hz. apply Hiff. by left.
  - intros [= -> -> ->]. apply Hiff. right. lia.
  - intros [= -> -> ->]. destruct bricked; [|done].
    destruct (proj1 Hiff eq_refl) as [?|?]; lia.
Qed.

(** C4: when the configuration is read, with channel counts [c0], [c1] and
    [c2], [isBricked] returns true exactly when one of them is 0 or all
    three are equal and differ from 15; when reading the configuration
    throws, whatever the error, [isBricked] returns true instead of
    throwing. So true on a zero count, true on (5, 5, 5), false on
    (15, 15, 16). *)
Theorem isBricked_spec s :
  (∀ config s' c0 c1 c2,
     getConfig K s = (Ok config, s') →
     channel0_leds config = Some c0 →
     channel1_leds config = Some c1 →
     channel2_leds config = Some c2 →
     ∃ bricked,
       isBricked K s = (Ok bricked, s') ∧
       (bricked = true ↔
          (c0 = 0 ∨ c1 = 0 ∨ c2 = 0) ∨ (c0 = c1 ∧ c1 = c2 ∧ c0 ≠ 15)) ∧
       (c0 = 0 ∨ c1 = 0 ∨ c2 = 0 → bricked = true) ∧
       ((c0, c1, c2) = (5, 5, 5) → bricked = true) ∧
       ((c0, c1, c2) = (15, 15, 16) → bricked = false)) ∧
  (∀ e s', getConfig K s = (Throw e, s') → isBricked K s = (Ok true, s')).
Proof.
  split.
  - intros config s' c0 c1 c2 Hget H0 H1 H2.
    unfold isBricked, try_catch, bind. rewrite Hget, H0, H1, H2.
    repeat case_decide.
    + exists true. split; [done|]. apply bricked_consequences.
      split; [|done]. intros _. left.
      repeat match goal with H : _ ∨ _ |- _ => destruct H end; simplify_eq; auto.
    + exists true. split; [done|]. apply bricked_consequences.
      split; [|done]. intros _. right.
      repeat match goal with H : _ ∧ _ |- _ => destruct H end.
      simplify_eq. repeat split; congruence.
    + exists false. split; [done|]. apply bricked_consequences.
      split; [done|]. intros [Hz|[Ha [Hb Hne]]]; exfalso.
      * match goal with H : ¬ (_ ∨ _) |- _ => apply H end.
        destruct Hz as [-> | [-> | ->]]; auto.
      * match goal with H : ¬ (_ ∧ _) |- _ => apply H end.
        subst. repeat split; congruence.
  - intros e s' Hget. unfold isBricked, try_catch, bind. by rewrite Hget.
Qed.

(** C3 (as the code has it): on a session without a device [unbrick] throws
    before anything is sent and leaves the session as it was. On a connected
    session whose transport takes the writes and answers the configuration
    read with a valid response, for a target topology (the session's own
    when none is given) of array-index channels, [unbrick] sends exactly
    one set-topology command [EC 52 53 channel count] per (channel, count)
    pair of the target, in ascending channel order, then the commit command
    [EC 3F 55], then the read-config request [EC B0], each zero-padded to
    65 bytes; it returns true exactly when the channel-2 count read back is
    at least 16, and leaves the state [COMMITTED] either way. *)
Theorem unbrick_spec c w targetTopology :
  let target := default (topology c) targetTopology in
  let command := λ entry : N * Z,
    [0xEC; 0x52; 0x53; Z.of_N entry.1 mod 256; entry.2 mod 256] ++ replicate 60 0 in
  let commit_command := [0xEC; 0x3F; 0x55] ++ replicate 62 0 in
  let read_config_command := [0xEC; 0xB0] ++ replicate 63 0 in
  (device (protocol c) = None →
     unbrick K targetTopology (c, w) = (Throw Not_connected, (c, w))) ∧
  (accepting K → opened (protocol c) → state c ≠ DISCONNECTED →
   array_indexed target →
     ∃ entries : list (N * Z),
       entries ≡ₚ map_to_list target ∧
       StronglySorted key_lt entries ∧
       let sent := w ++ (command <$> entries)
                     ++ [commit_command; read_config_command] in
       ∀ config, decodeConfig (response_of K sent) = Ok config →
         ∃ success,
           unbrick K targetTopology (c, w) =
             (Ok success, (with_state COMMITTED c, sent)) ∧
           (success = true ↔ ∃ n, channel2_leds config = Some n ∧ 16 ≤ n)).
Proof.
  intros target command commit_command read_config_command. split.
  - intros Hd. unfold unbrick, bind, this. simpl. fold target.
    destruct (Object_entries target) as [|entry entries] eqn:He.
    + simpl. unfold ret, Protocol.commit.
      by rewrite call_send_closed.
    + by rewrite topology_loop_closed.
  - intros Hacc Hopen Hs _. exists (Object_entries target).
    split; [apply Object_entries_perm|].
    split; [apply Object_entries_sorted|].
    intros sent config Hconfig.
    assert (Hsent : ((w ++ topology_packets target) ++ [commit_packet])
                      ++ [getConfig_packet] = sent).
    { unfold sent. by rewrite <- !(assoc_L (++)). }
    exists (match channel2_leds config with
            | Some n => bool_decide (16 ≤ n)
            | None => false
            end).
    split.
    + unfold unbrick, bind, this. simpl. fold target.
      rewrite topology_loop_ok by done. fold (topology_packets target).
      unfold Protocol.commit.
      rewrite call_send by (done || apply is_bytes_commit_packet).
      rewrite getConfig_connected by done.
      rewrite Hsent, Hconfig. reflexivity.
    + destruct (channel2_leds config) as [n|].
      * rewrite bool_decide_eq_true. split; [by exists n|].
        by intros (? & [= <-] & ?).
      * split; [done|]. by intros (? & ? & ?).
Qed.

End WithKernel.

(** ** Runs against a device that answers *)

Lemma accepting_answering response : accepting (answering response).
Proof. by intros w buffer. Qed.

Lemma plugged_opened : opened plugged.
Proof. by eexists. Qed.

Example Object_entries_ascending :
  Object_entries (<[2%N := 16]> (<[0%N := 15]> {[1%N := 15]})) =
  [(0%N, 15); (1%N, 15); (2%N, 16)].
Proof. vm_compute. reflexivity. Qed.

Example connect_then_commit :
  (let* _ := connect healthy in commit healthy) (new None, []) =
  (Ok tt, (session COMMITTED default_topology,
           topology_packets default_topology ++ [commit_packet])).
Proof. vm_compute. reflexivity. Qed.

Example isBricked_examples :
  isBricked (answering (config_response 0 15 16)) (session RUNTIME default_topology, []) =
    (Ok true, (session RUNTIME default_topology, [getConfig_packet])) ∧
  isBricked (answering (config_response 5 5 5)) (session RUNTIME default_topology, []) =
    (Ok true, (session RUNTIME default_topology, [getConfig_packet])) ∧
  isBricked (answering (config_response 15 15 16)) (session RUNTIME default_topology, []) =
    (Ok false, (session RUNTIME default_topology, [getConfig_packet])) ∧
  isBricked (answering (config_response 15 15 9)) (session RUNTIME default_topology, []) =
    (Ok false, (session RUNTIME default_topology, [getConfig_packet])) ∧
  isBricked silent (session RUNTIME default_topology, []) =
    (Ok true, (session RUNTIME default_topology, [getConfig_packet])) ∧
  isBricked healthy (new None, []) = (Ok true, (new None, [])).
Proof. repeat split_and; vm_compute; reflexivity. Qed.

Lemma array_indexed_default_topology : array_indexed default_topology.
Proof.
  intros channel count Hlookup. unfold default_topology in Hlookup.
  apply lookup_insert_Some in Hlookup as [[<- _]|[_ Hlookup]]; [reflexivity|].
  apply lookup_insert_Some in Hlookup as [[<- _]|[_ Hlookup]]; [reflexivity|].
  apply lookup_singleton_Some in Hlookup as [<- _]. reflexivity.
Qed.

Example initTopology_wire :
  initTopology healthy (session LOCKED default_topology, []) =
  (Ok tt,
   (session RUNTIME default_topology,
    [[0xEC; 0x52; 0x53; 0; 15] ++ replicate 60 0;
     [0xEC; 0x52; 0x53; 1; 15] ++ replicate 60 0;
     [0xEC; 0x52; 0x53; 2; 16] ++ replicate 60 0])).
Proof. vm_compute. reflexivity. Qed.

Lemma initTopology_witness :
  ∃ entries : list (N * Z),
    entries ≡ₚ map_to_list default_topology ∧
    StronglySorted key_lt entries ∧
    initTopology healthy (session LOCKED default_topology, []) =
    (Ok tt,
     (with_state RUNTIME (session LOCKED default_topology),
      [] ++ ((λ entry : N * Z,
                [0xEC; 0x52; 0x53; Z.of_N entry.1 mod 256; entry.2 mod 256]
                ++ replicate 60 0) <$> entries))).
Proof.
  destruct (proj1 (proj2 (initTopology_spec healthy
                            (session LOCKED default_topology) [])))
    as (entries & Hperm & Hsorted & Hrun & _).
  - discriminate.
  - apply accepting_answering.
  - apply plugged_opened.
  - apply array_indexed_default_topology.
  - exists entries. split; [exact Hperm|]. split; [exact Hsorted | exact Hrun].
Defined.

Lemma connect_witness :
  state (connect healthy (new None, [])).2.1 = RUNTIME.
Proof.
  apply (connect_reaches_runtime healthy (new None, [])).
  vm_compute. reflexivity.
Defined.

Lemma commit_witness :
  commit healthy (session RUNTIME default_topology, []) =
  (Ok tt, (with_state COMMITTED (session RUNTIME default_topology), [] ++ [commit_packet])).
Proof.
  apply (proj2 (proj2 (commit_spec healthy (session RUNTIME default_topology) []))).
  - reflexivity.
  - apply accepting_answering.
  - apply plugged_opened.
Defined.

(** C1, as stated, fails: after [connect] and a first [commit] the state is
    [COMMITTED], and a second [commit] throws instead of succeeding. *)
Lemma commit_from_committed_throws :
  ∃ s1 s2,
    connect healthy (new None, []) = (Ok tt, s1) ∧
    commit healthy s1 = (Ok tt, s2) ∧
    state s2.1 = COMMITTED ∧
    commit healthy s2 = (Throw (BSM_cannot_commit COMMITTED), s2).
Proof. do 2 eexists. repeat split_and; vm_compute; reflexivity. Qed.

Lemma color_ops_witness :
  setLED healthy 2 9 255 0 0 (session LOCKED default_topology, []) =
  (Ok tt, (with_state RUNTIME (session LOCKED default_topology),
           ([] ++ topology_packets default_topology)
             ++ [setDirectLED_packet 2 9 [Color.rgb 255 0 0]])).
Proof.
  apply (proj2 (color_ops_guard healthy (session LOCKED default_topology) []
                  2 9 0 255 0 0 None None None None)).
  - reflexivity.
  - apply accepting_answering.
  - apply plugged_opened.
Defined.

Lemma setAllLEDs_fallback_witness :
  setAllLEDs healthy 7 1 2 3 (session RUNTIME default_topology, []) =
  (Ok tt, (session RUNTIME default_topology,
           [setDirectLED_packet 7 0 (replicate 16 (Color.rgb 1 2 3))])).
Proof.
  apply (setAllLEDs_fallback healthy (session RUNTIME default_topology) [] 7 1 2 3).
  - apply accepting_answering.
  - apply plugged_opened.
  - done.
  - left. vm_compute. reflexivity.
Defined.

Lemma isBricked_witness :
  ∃ bricked,
    isBricked healthy (session RUNTIME default_topology, []) =
      (Ok bricked, (session RUNTIME default_topology, [getConfig_packet])) ∧
    bricked = false.
Proof.
  destruct (proj1 (isBricked_spec healthy (session RUNTIME default_topology, []))
              {| raw := config_response 15 15 16;
                 configBytes := config_response 15 15 16;
                 channel0_leds := Some 15;
                 channel1_leds := Some 15;
                 channel2_leds := Some 16 |}
              (session RUNTIME default_topology, [getConfig_packet])
              15 15 16)
    as (bricked & Hrun & _ & _ & _ & Hfalse).
  - vm_compute. reflexivity.
  - reflexivity.
  - reflexivity.
  - reflexivity.
  - exists bricked. split; [exact Hrun | by apply Hfalse].
Defined.

Example unbrick_wire :
  unbrick healthy None (session LOCKED default_topology, []) =
  (Ok true,
   (session COMMITTED default_topology,
    [[0xEC; 0x52; 0x53; 0; 15] ++ replicate 60 0;
     [0xEC; 0x52; 0x53; 1; 15] ++ replicate 60 0;
     [0xEC; 0x52; 0x53; 2; 16] ++ replicate 60 0;
     [0xEC; 0x3F; 0x55] ++ replicate 62 0;
     [0xEC; 0xB0] ++ replicate 63 0])).
Proof. vm_compute. reflexivity. Qed.

Lemma unbrick_witness :
  ∃ (entries : list (N * Z)) (success : bool),
    entries ≡ₚ map_to_list default_topology ∧
    StronglySorted key_lt entries ∧
    unbrick healthy None (session LOCKED default_topology, []) =
      (Ok success,
       (with_state COMMITTED (session LOCKED default_topology),
        [] ++ ((λ entry : N * Z,
                  [0xEC; 0x52; 0x53; Z.of_N entry.1 mod 256; entry.2 mod 256]
                  ++ replicate 60 0) <$> entries)
           ++ [[0xEC; 0x3F; 0x55] ++ replicate 62 0;
               [0xEC; 0xB0] ++ replicate 63 0])) ∧
    success = true.
Proof.
  destruct (proj2 (unbrick_spec healthy (session LOCKED default_topology) [] None)
              (accepting_answering _) plugged_opened)
    as (entries & Hperm & Hsorted & Hrun).
  - discriminate.
  - apply array_indexed_default_topology.
  - destruct (Hrun {| raw := config_response 15 15 16;
                      configBytes := config_response 15 15 16;
                      channel0_leds := Some 15;
                      channel1_leds := Some 15;
                      channel2_leds := Some 16 |})
      as (success & Hok & Hiff).
    + reflexivity.
    + exists entries, success.
      split; [exact Hperm|]. split; [exact Hsorted|]. split; [exact Hok|].
      apply Hiff. exists 16. split; [reflexivity | lia].
Defined.

(** C3, as stated, fails: on a session that was never connected [unbrick]
    sends nothing, throws, and the state stays [DISCONNECTED]. *)
Lemma unbrick_disconnected_throws :
  state (new None) = DISCONNECTED ∧
  unbrick healthy None (new None, []) = (Throw Not_connected, (new None, [])) ∧
  unbrick healthy (Some default_topology) (new None, []) =
    (Throw Not_connected, (new None, [])).
Proof. repeat split_and; vm_compute; reflexivity. Qed.

End SessionFacts.

(** * Further behaviour of the transport, the session and the tool *)

Module Behaviour.
Import Protocol Safe CodecFacts SessionFacts.

Section WithKernel.
Context (K : Kernel).

(** ** What [sendPacket] does to the wire *)

Lemma sendPacket_outcome packet waitResponse p w res p' w' :
  sendPacket K packet waitResponse (p, w) = (res, (p', w')) →
  p' = p ∧
  match res with
  | Ok response =>
      length packet = 65%nat ∧ w' = w ++ [Buffer_from packet] ∧
      response = if waitResponse then response_of K w' else None
  | Throw _ =>
      w' = w ∨
      ∃ n, n ≠ 65%nat ∧ length packet = 65%nat ∧
           w' = w ++ [take n (Buffer_from packet)]
  end.
Proof.
  unfold sendPacket, bind, get. simpl.
  destruct (device p) as [d|]; [|intros [= <- <- <-]; auto].
  case_decide as Hlen; [intros [= <- <- <-]; auto|].
  assert (length packet = 65%nat) as Hlen'
    by (unfold PACKET_SIZE in Hlen; destruct (decide (length packet = 65%nat)); done).
  unfold io, HID.write, HID.readTimeout.
  destruct (HID.fd_falsy d); simpl; [intros [= <- <- <-]; auto|].
  destruct (writeSync K w (Buffer_from packet)) as [written|];
    [|intros [= <- <- <-]; auto].
  assert (length (Buffer_from packet) = length packet) as Hl
    by apply length_fmap.
  rewrite Hl.
  case_decide as Hw; simpl.
  - intros [= <- <- <-]. split; [done|]. right. exists written.
    split; [lia|done].
  - assert (written = length packet) as ->
      by (destruct (decide (written = length packet)); done).
    assert (take (length packet) (Buffer_from packet) = Buffer_from packet) as Hall
      by (apply take_ge; lia).
    rewrite Hall. unfold response_of.
    destruct waitResponse; simpl.
    + destruct (readSync K (w ++ [Buffer_from packet])) as [bytes|] eqn:Hr; simpl.
      * case_decide as Hz; intros [= <- <- <-]; repeat (split; [done|]);
          rewrite Hr; [by rewrite decide_True | by rewrite decide_False].
      * intros [= <- <- <-]. repeat (split; [done|]). by rewrite Hr.
    + intros [= <- <- <-]; auto.
Qed.

(** ** What each call does to the controller *)

Lemma call_send_outcome packet c w res c' w' :
  is_bytes packet →
  on_protocol (let* _ := sendPacket K packet false in ret tt) (c, w) = (res, (c', w')) →
  c' = c ∧
  match res with
  | Ok _ => length packet = 65%nat ∧ w' = w ++ [packet]
  | Throw _ => True
  end.
Proof.
  intros Hbytes. unfold on_protocol, bind. simpl.
  destruct (sendPacket K packet false (protocol c, w)) as [[r|e] [p1 w1]] eqn:Hs;
    apply sendPacket_outcome in Hs as [-> Hs]; simpl;
    intros [= <- <- <-]; rewrite with_protocol_id; [|done].
  destruct Hs as (? & -> & _). by rewrite Buffer_from_bytes.
Qed.

Lemma call_getConfig_outcome c w res c' w' :
  on_protocol (Protocol.getConfig K) (c, w) = (res, (c', w')) →
  c' = c ∧
  match res with
  | Ok config =>
      w' = w ++ [getConfig_packet] ∧ decodeConfig (response_of K w') = Ok config
  | Throw e => kind e ≠ StateError
  end.
Proof.
  unfold on_protocol, Protocol.getConfig, bind. simpl.
  destruct (sendPacket K getConfig_packet true (protocol c, w))
    as [[r|e] [p1 w1]] eqn:Hs.
  - apply sendPacket_outcome in Hs as [-> (_ & -> & ->)].
    rewrite (Buffer_from_bytes _ is_bytes_getConfig_packet).
    unfold of_result. simpl.
    destruct (decodeConfig _) as [config|e] eqn:Hd;
      intros [= <- <- <-]; rewrite with_protocol_id; [done|].
    split; [done|]. unfold decodeConfig in Hd.
    destruct (response_of K _); [case_decide|]; by simplify_eq.
  - pose proof (sendPacket_error_kind _ _ _ _ _ _ Hs) as Hk.
    apply sendPacket_outcome in Hs as [-> _]. simpl.
    intros [= <- <- <-]. rewrite with_protocol_id. split; [done|]. by rewrite Hk.
Qed.

Lemma topology_loop_outcome entries c w res c' w' :
  for_of entries (send_entry K) (c, w) = (res, (c', w')) →
  c' = c ∧
  match res with
  | Ok _ =>
      w' = w ++ ((λ entry, setLEDCount_packet (Z.of_N entry.1) entry.2) <$> entries)
  | Throw _ => True
  end.
Proof.
  revert w. induction entries as [|entry entries IH]; intros w; simpl.
  - intros [= <- <- <-]. by rewrite app_nil_r.
  - unfold bind.
    destruct (send_entry K entry (c, w)) as [[[]|e] [c1 w1]] eqn:H1;
      unfold send_entry, Protocol.setLEDCount in H1;
      apply call_send_outcome in H1 as [-> H1];
      try apply is_bytes_setLEDCount_packet.
    + destruct H1 as [_ ->]. intros H2. apply IH in H2 as [-> H2].
      split; [done|]. destruct res; [|done].
      by rewrite H2, <- (assoc_L (++)).
    + by intros [= <- <- <-].
Qed.

Lemma initTopology_outcome c w res c' w' :
  initTopology K (c, w) = (res, (c', w')) →
  match res with
  | Ok _ =>
      state c ≠ DISCONNECTED ∧ c' = with_state RUNTIME c ∧
      w' = w ++ topology_packets (topology c)
  | Throw _ => c' = c
  end.
Proof.
  unfold initTopology, bind, this. simpl.
  case_decide as Hs; [by intros [= <- <- <-]|].
  destruct (for_of _ _ (c, w)) as [[[]|e] [c1 w1]] eqn:Hloop;
    apply topology_loop_outcome in Hloop as [-> Hloop].
  - unfold set_state. simpl. intros [= <- <- <-]. by rewrite Hloop.
  - by intros [= <- <- <-].
Qed.

Lemma ensureRuntime_outcome c w res c' w' :
  _ensureRuntime K (c, w) = (res, (c', w')) →
  match res with
  | Ok _ =>
      state c ≠ DISCONNECTED ∧
      ((state c = LOCKED ∧ c' = with_state RUNTIME c ∧
        w' = w ++ topology_packets (topology c)) ∨
       (state c ≠ LOCKED ∧ c' = c ∧ w' = w))
  | Throw _ => c' = c
  end.
Proof.
  unfold _ensureRuntime, bind, this. simpl.
  case_decide as Hd; [by intros [= <- <- <-]|].
  case_decide as Hl.
  - intros Hinit. apply initTopology_outcome in Hinit.
    destruct res; [|done]. destruct Hinit as (_ & -> & ->). auto.
  - intros [= <- <- <-]. auto.
Qed.

Lemma commit_outcome c w res c' w' :
  commit K (c, w) = (res, (c', w')) →
  match res with
  | Ok _ =>
      state c = RUNTIME ∧ c' = with_state COMMITTED c ∧ w' = w ++ [commit_packet]
  | Throw _ => c' = c
  end.
Proof.
  unfold commit, bind, this. simpl.
  case_decide as Hs; [by intros [= <- <- <-]|].
  assert (state c = RUNTIME) by (destruct (decide (state c = RUNTIME)); done).
  destruct (on_protocol (Protocol.commit K) (c, w)) as [[[]|e] [c1 w1]] eqn:Hc;
    unfold Protocol.commit in Hc;
    apply call_send_outcome in Hc as [-> Hc]; try apply is_bytes_commit_packet.
  - destruct Hc as [_ ->]. unfold set_state. simpl. by intros [= <- <- <-].
  - by intros [= <- <- <-].
Qed.

Lemma getConfig_outcome c w res c' w' :
  getConfig K (c, w) = (res, (c', w')) →
  c' = c ∧
  match res with
  | Ok config =>
      state c ≠ DISCONNECTED ∧ w' = w ++ [getConfig_packet] ∧
      decodeConfig (response_of K w') = Ok config
  | Throw e => state c = DISCONNECTED ∧ w' = w ∨ kind e ≠ StateError
  end.
Proof.
  unfold getConfig, bind, this. simpl.
  case_decide as Hs; [intros [= <- <- <-]; auto|].
  intros Hc. apply call_getConfig_outcome in Hc as [-> Hc].
  split; [done|]. destruct res; [|auto]. by destruct Hc.
Qed.

Lemma isBricked_outcome c w res c' w' :
  isBricked K (c, w) = (res, (c', w')) →
  c' = c ∧ ∃ bricked, res = Ok bricked.
Proof.
  unfold isBricked, try_catch, bind.
  destruct (getConfig K (c, w)) as [[config|e] [c1 w1]] eqn:Hg;
    apply getConfig_outcome in Hg as [-> _].
  - repeat case_decide; intros [= <- <- <-]; eauto.
  - intros [= <- <- <-]; eauto.
Qed.

Lemma unbrick_outcome targetTopology c w res c' w' :
  unbrick K targetTopology (c, w) = (res, (c', w')) →
  match res with
  | Ok success =>
      state c ≠ DISCONNECTED ∧ c' = with_state COMMITTED c ∧
      w' = w ++ topology_packets (default (topology c) targetTopology)
             ++ [commit_packet; getConfig_packet] ∧
      ∃ config, decodeConfig (response_of K w') = Ok config ∧
                (success = true ↔ ∃ n, channel2_leds config = Some n ∧ 16 ≤ n)
  | Throw _ => c' = c
  end.
Proof.
  unfold unbrick, bind, this. simpl.
  destruct (for_of _ _ (c, w)) as [[[]|e] [c1 w1]] eqn:Hloop;
    apply topology_loop_outcome in Hloop as [-> Hloop];
    [|by intros [= <- <- <-]].
  destruct (on_protocol (Protocol.commit K) (c, w1)) as [[[]|e] [c2 w2]] eqn:Hc;
    unfold Protocol.commit in Hc;
    apply call_send_outcome in Hc as [-> Hc]; try apply is_bytes_commit_packet;
    [|by intros [= <- <- <-]].
  destruct (getConfig K (c, w2)) as [[config|e] [c3 w3]] eqn:Hg;
    apply getConfig_outcome in Hg as [-> Hg];
    [|by intros [= <- <- <-]].
  unfold set_state. simpl. intros [= <- <- <-].
  destruct Hg as (Hs & -> & Hd). destruct Hc as [_ ->]. subst w1.
  fold (topology_packets (default (topology c) targetTopology)) in *.
  split; [done|]. split; [done|].
  assert (((w ++ topology_packets (default (topology c) targetTopology))
             ++ [commit_packet]) ++ [getConfig_packet]
          = w ++ topology_packets (default (topology c) targetTopology)
              ++ [commit_packet; getConfig_packet]) as Hw
    by (by rewrite <- !(assoc_L (++))).
  rewrite Hw in Hd |- *. split; [done|].
  exists config. split; [done|].
  destruct (channel2_leds config) as [n|].
  - rewrite bool_decide_eq_true. split; [by exists n|].
    by intros (? & [= <-] & ?).
  - split; [done|]. by intros (? & ? & ?).
Qed.

(** What follows the guard in [setAllLEDs]. *)
Lemma setAllLEDs_tail_outcome channel r g b c w res c' w' :
  (let* self := this in
   let count :=
     match Object_get (topology self) channel with
     | Some n => if decide (n = 0) then 16 else n
     | None => 16
     end in
   if decide (count < 0 ∨ 2 ^ 32 ≤ count) then throw RangeError_array_length
   else
     let colors := replicate (Z.to_nat count) (Color.rgb r g b) in
     on_protocol (Protocol.setDirectLED K channel 0 colors)) (c, w)
  = (res, (c', w')) →
  c' = c.
Proof.
  unfold bind, this. simpl. case_decide.
  - by intros [= <- <- <-].
  - unfold Protocol.setDirectLED. intros Hc.
    by apply call_send_outcome in Hc as [-> _];
      try apply is_bytes_setDirectLED_packet.
Qed.

Lemma steady_refl c : steady c c.
Proof. unfold steady. auto. Qed.

Lemma steady_with_state st c :
  state c ≠ DISCONNECTED → st ≠ DISCONNECTED → steady c (with_state st c).
Proof. unfold steady. simpl. auto. Qed.

Lemma guarded_steady (rest : M (SafeAuraController * list (list Z)) unit) c w res c' w' :
  (∀ c1 w1 res1 c2 w2, rest (c1, w1) = (res1, (c2, w2)) → c2 = c1) →
  (let* _ := _ensureRuntime K in rest) (c, w) = (res, (c', w')) →
  steady c c'.
Proof.
  intros Hrest. unfold bind.
  destruct (_ensureRuntime K (c, w)) as [[[]|e] [c1 w1]] eqn:Hg;
    apply ensureRuntime_outcome in Hg.
  - intros Hr. apply Hrest in Hr as ->.
    destruct Hg as (Hd & [(Hl & -> & _)|(_ & -> & _)]).
    + by apply steady_with_state.
    + apply steady_refl.
  - intros [= <- <- <-]. subst. apply steady_refl.
Qed.

(** Every call but [connect] and [disconnect] keeps the handle and the
    topology, and moves the state only between connected states. *)
Lemma call_steady (cl : Call) c w :
  cl ≠ Connect → cl ≠ Disconnect → steady c (call K cl (c, w)).2.1.
Proof.
  intros Hc Hd.
  destruct (call K cl (c, w)) as [res [c' w']] eqn:Hcall. simpl.
  destruct cl; try done; simpl in Hcall.
  - apply initTopology_outcome in Hcall. destruct res.
    + destruct Hcall as (? & -> & _). by apply steady_with_state.
    + subst. apply steady_refl.
  - unfold setLED in Hcall. eapply guarded_steady; [|exact Hcall].
    intros c1 w1 res1 c2 w2. unfold Protocol.setDirectLED. intros Hs.
    by apply call_send_outcome in Hs as [-> _];
      try apply is_bytes_setDirectLED_packet.
  - unfold setAllLEDs in Hcall. eapply guarded_steady; [|exact Hcall].
    intros c1 w1 res1 c2 w2. apply setAllLEDs_tail_outcome.
  - unfold setEffect in Hcall. eapply guarded_steady; [|exact Hcall].
    intros c1 w1 res1 c2 w2. unfold Protocol.setEffect. intros Hs.
    by apply call_send_outcome in Hs as [-> _];
      try apply is_bytes_setEffect_packet.
  - apply commit_outcome in Hcall. destruct res.
    + destruct Hcall as (Hs & -> & _). apply steady_with_state; congruence.
    + subst. apply steady_refl.
  - unfold bind in Hcall.
    destruct (getConfig K (c, w)) as [[config|e] [c1 w1]] eqn:Hg;
      apply getConfig_outcome in Hg as [-> _];
      injection Hcall as <- <- <-; apply steady_refl.
  - injection Hcall as <- <- <-. apply steady_refl.
  - unfold bind in Hcall.
    destruct (isBricked K (c, w)) as [[b|e] [c1 w1]] eqn:Hb;
      apply isBricked_outcome in Hb as [-> _];
      injection Hcall as <- <- <-; apply steady_refl.
  - unfold bind in Hcall.
    destruct (unbrick K targetTopology (c, w)) as [[b|e] [c1 w1]] eqn:Hu;
      apply unbrick_outcome in Hu.
    + destruct Hu as (? & -> & _). injection Hcall as <- <- <-.
      by apply steady_with_state.
    + subst. injection Hcall as <- <- <-. apply steady_refl.
Qed.

(** ** [connect] and [disconnect] *)

Lemma protocol_connect_outcome p w :
  Protocol.connect K (p, w) =
  match findAuraDevice K with
  | None => (Throw Controller_not_found, (p, w))
  | Some path =>
      match openSync K path with
      | Opened n =>
          (Ok tt, ({| device := Some {| HID.path := path; HID.fd := Some n |} |}, w))
      | EACCES => (Throw (Permission_denied path), (p, w))
      | ENOENT => (Throw (Device_not_found path), (p, w))
      | EOTHER => (Throw Fs_error, (p, w))
      end
  end.
Proof.
  unfold Protocol.connect, HID.devices.
  destruct (findAuraDevice K) as [path|]; [|done]. simpl.
  unfold bind, io, HID.new. simpl.
  by destruct (openSync K path).
Qed.

Lemma disconnect_outcome c w :
  disconnect (c, w) =
  (Ok tt, ({| protocol := {| device := None |};
              state := DISCONNECTED;
              topology := topology c |}, w)).
Proof. destruct c as [[[d|]] st o]; reflexivity. Qed.

Lemma connect_fields c w :
  topology (connect K (c, w)).2.1 = topology c ∧
  ((connect K (c, w)).2 = (c, w) ∨
   (device (protocol (connect K (c, w)).2.1) ≠ None ∧
    state (connect K (c, w)).2.1 ≠ DISCONNECTED)).
Proof.
  unfold connect, bind, on_protocol. simpl.
  rewrite protocol_connect_outcome.
  destruct (findAuraDevice K) as [path|]; simpl;
    [|rewrite with_protocol_id; auto].
  destruct (openSync K path) as [n| | |]; simpl;
    try (rewrite with_protocol_id; auto).
  destruct (initTopology K _) as [res [c' w']] eqn:Hinit.
  apply initTopology_outcome in Hinit. simpl.
  destruct res; [destruct Hinit as (_ & -> & _)|subst c']; simpl; auto.
Qed.

Lemma unbrick_closed targetTopology c w :
  device (protocol c) = None →
  unbrick K targetTopology (c, w) = (Throw Not_connected, (c, w)).
Proof.
  intros Hd. unfold unbrick, bind, this. simpl.
  destruct (Object_entries _) as [|entry entries] eqn:He.
  - simpl. unfold ret, Protocol.commit. by rewrite call_send_closed.
  - by rewrite topology_loop_closed.
Qed.

Lemma call_preserves (cl : Call) c w :
  topology (call K cl (c, w)).2.1 = topology c ∧
  (tracks_handle c → tracks_handle (call K cl (c, w)).2.1).
Proof.
  assert (Hsteady : cl ≠ Connect → cl ≠ Disconnect →
            topology (call K cl (c, w)).2.1 = topology c ∧
            (tracks_handle c → tracks_handle (call K cl (c, w)).2.1)).
  { intros Hc Hd. destruct (call_steady cl c w Hc Hd) as (Hp & Ht & Hs).
    split; [done|]. unfold tracks_handle. rewrite Hp. intros Hinv.
    destruct Hs as [->|[Hs Hs']]; [done|].
    split; [done|]. intros Hnone. by apply Hinv in Hnone. }
  destruct cl; try (by apply Hsteady).
  - simpl. destruct (connect_fields c w) as [Ht [Hsame|[Hd Hs]]].
    + split; [done|]. by rewrite Hsame.
    + split; [done|]. intros _. unfold tracks_handle. split; done.
  - simpl. rewrite disconnect_outcome. simpl. split; [done|].
    intros _. unfold tracks_handle. simpl. done.
Qed.

Lemma after_cons cl calls s : after K (cl :: calls) s = after K calls (call K cl s).2.
Proof. reflexivity. Qed.

Lemma after_preserves calls s :
  topology (after K calls s).1 = topology s.1 ∧
  (tracks_handle s.1 → tracks_handle (after K calls s).1).
Proof.
  revert s. induction calls as [|cl calls IH]; intros [c w]; [done|].
  rewrite after_cons. destruct (call_preserves cl c w) as [Ht Hh].
  destruct (IH (call K cl (c, w)).2) as [Ht' Hh'].
  split; [by rewrite Ht', Ht | auto].
Qed.

(** X1: no sequence of calls, whatever the device does and whichever calls
    throw, changes the configured topology. *)
Theorem topology_never_changes calls s :
  topology (after K calls s).1 = topology s.1.
Proof. apply after_preserves. Qed.

(** X2: after any sequence of calls on a fresh controller, the tracked
    state is [DISCONNECTED] exactly when the protocol object holds no
    device handle. *)
Theorem state_tracks_handle calls options_topology w :
  tracks_handle (after K calls (new options_topology, w)).1.
Proof. apply after_preserves. by unfold tracks_handle. Qed.

(** X3: on a disconnected session (state [DISCONNECTED], no handle) every
    call but [connect] leaves the controller and the wire as they were, so
    nothing is sent; and every such call throws, except [disconnect],
    [getState] and [isBricked]. *)
Theorem disconnected_is_inert (cl : Call) c w :
  state c = DISCONNECTED → device (protocol c) = None → cl ≠ Connect →
  (call K cl (c, w)).2 = (c, w) ∧
  (cl ≠ Disconnect → cl ≠ GetState → cl ≠ IsBricked →
   ∃ e, (call K cl (c, w)).1 = Throw e).
Proof.
  intros Hs Hd Hc.
  assert (Hget : getConfig K (c, w) = (Throw BSM_not_connected, (c, w))).
  { unfold getConfig, bind, this. simpl. by rewrite decide_True. }
  destruct cl; try done; simpl.
  - rewrite disconnect_outcome. split; [|done].
    destruct c as [[d] st o]. simpl in *. by subst.
  - rewrite initTopology_disconnected by done. eauto.
  - unfold setLED. rewrite guarded_disconnected by done. eauto.
  - unfold setAllLEDs. rewrite guarded_disconnected by done. eauto.
  - unfold setEffect. rewrite guarded_disconnected by done. eauto.
  - unfold commit, bind, this. simpl.
    rewrite decide_True by congruence. eauto.
  - unfold bind. rewrite Hget. eauto.
  - unfold bind, isBricked, try_catch, bind. rewrite Hget.
    split; [reflexivity | by intros].
  - unfold bind. rewrite unbrick_closed by done. eauto.
Qed.

(** X4: [disconnect] (the close of the handle taken to succeed) never
    throws and writes nothing; from any state it leaves the state
    [DISCONNECTED], no handle, and the topology as it was; a second
    [disconnect] changes nothing. *)
Theorem disconnect_resets c w :
  ∃ c',
    disconnect (c, w) = (Ok tt, (c', w)) ∧
    state c' = DISCONNECTED ∧
    device (protocol c') = None ∧
    topology c' = topology c ∧
    disconnect (c', w) = (Ok tt, (c', w)).
Proof.
  eexists. rewrite disconnect_outcome. split; [reflexivity|].
  by repeat split.
Qed.

(** ** The transport under the operations *)

(** X5: [sendPacket] throws 'Not connected' without a device and refuses a
    packet that is not 65 bytes long before writing; it returns only after
    the whole packet has reached the device, with the response that
    follows when one is awaited; it never changes the protocol object, and
    none of its errors is a state error. *)
Theorem sendPacket_all_or_error packet waitResponse p w :
  (device p = None →
     sendPacket K packet waitResponse (p, w) = (Throw Not_connected, (p, w))) ∧
  (device p ≠ None → length packet ≠ 65%nat →
     sendPacket K packet waitResponse (p, w) = (Throw Bad_packet_size, (p, w))) ∧
  (∀ response p' w',
     sendPacket K packet waitResponse (p, w) = (Ok response, (p', w')) →
     p' = p ∧ length packet = 65%nat ∧ w' = w ++ [Buffer_from packet] ∧
     response = if waitResponse then response_of K w' else None) ∧
  (∀ e p' w',
     sendPacket K packet waitResponse (p, w) = (Throw e, (p', w')) →
     p' = p ∧ kind e = OtherError).
Proof.
  repeat split_and.
  - apply sendPacket_closed.
  - intros Hd Hlen. unfold sendPacket, bind, get. simpl.
    destruct (device p); [|done].
    by rewrite decide_True.
  - intros response p' w' Hs. by apply sendPacket_outcome in Hs as [-> ?].
  - intros e p' w' Hs. split.
    + by apply sendPacket_outcome in Hs as [-> _].
    + by eapply sendPacket_error_kind.
Qed.

Lemma sendPacket_short_write packet p w n :
  opened p → length packet = 65%nat → is_bytes packet →
  writeSync K w packet = Some n → n ≠ 65%nat →
  sendPacket K packet false (p, w) =
  (Throw (Short_write 65 n), (p, w ++ [take n packet])).
Proof.
  intros (d & Hd & Hfd) Hlen Hbytes Hw Hn.
  unfold sendPacket, bind, get. simpl. rewrite Hd.
  rewrite decide_False by (unfold PACKET_SIZE; lia).
  unfold io, HID.write. rewrite Hfd. simpl.
  rewrite (Buffer_from_bytes _ Hbytes), Hw, Hlen.
  by rewrite decide_True.
Qed.

(** X6: [commit] either returns, and then the state was [RUNTIME], the
    whole commit packet was written and the state is [COMMITTED]; or it
    throws and the controller is as it was. When the device takes only part
    of the packet, [commit] throws and the state stays [RUNTIME]. *)
Theorem commit_all_or_nothing c w :
  (∀ c' w',
     commit K (c, w) = (Ok tt, (c', w')) →
     state c = RUNTIME ∧ c' = with_state COMMITTED c ∧ w' = w ++ [commit_packet]) ∧
  (∀ e c' w', commit K (c, w) = (Throw e, (c', w')) → c' = c) ∧
  (∀ n, state c = RUNTIME → opened (protocol c) →
     writeSync K w commit_packet = Some n → n ≠ 65%nat →
     commit K (c, w) = (Throw (Short_write 65 n), (c, w ++ [take n commit_packet]))).
Proof.
  repeat split_and.
  - intros c' w' Hc. by apply commit_outcome in Hc.
  - intros e c' w' Hc. by apply commit_outcome in Hc.
  - intros n Hs Hopen Hw Hn. unfold commit, bind, this. simpl.
    rewrite decide_False by (intros ?; done).
    unfold on_protocol, Protocol.commit, bind. simpl.
    rewrite (sendPacket_short_write _ _ _ n)
      by (done || apply is_bytes_commit_packet).
    simpl. by rewrite with_protocol_id.
Qed.

(** X7: [connect] throws 'controller not found' when no device node is
    found, and tells a permission error from a missing node when the open
    fails; in each of these cases nothing is written and the session stays
    as it was. Once the node opens, [connect] takes the new handle, sets
    [LOCKED] and runs [initTopology]. *)
Theorem connect_outcome c w :
  match findAuraDevice K with
  | None => connect K (c, w) = (Throw Controller_not_found, (c, w))
  | Some path =>
      match openSync K path with
      | Opened n =>
          connect K (c, w) =
          initTopology K
            ({| protocol := {| device := Some {| HID.path := path; HID.fd := Some n |} |};
                state := LOCKED;
                topology := topology c |}, w)
      | EACCES => connect K (c, w) = (Throw (Permission_denied path), (c, w))
      | ENOENT => connect K (c, w) = (Throw (Device_not_found path), (c, w))
      | EOTHER => connect K (c, w) = (Throw Fs_error, (c, w))
      end
  end.
Proof.
  unfold connect, bind, on_protocol. simpl.
  rewrite protocol_connect_outcome.
  destruct (findAuraDevice K) as [path|]; simpl;
    [|by rewrite with_protocol_id].
  destruct (openSync K path) as [n| | |]; simpl;
    by rewrite ?with_protocol_id.
Qed.

Lemma Object_entries_nonempty (o : gmap N Z) : o ≠ ∅ → Object_entries o ≠ [].
Proof.
  intros Ho He. apply Ho, map_to_list_empty_iff.
  apply Permutation_nil_r. by rewrite <- Object_entries_perm, He.
Qed.

(** X8: a handle on file descriptor 0 counts as not open: when the device
    node opens as descriptor 0 and the topology has a channel, [connect]
    throws 'Device not open' at its first packet, writes nothing, and
    leaves the session [LOCKED] with that handle. *)
Theorem connect_on_fd_zero c w path :
  findAuraDevice K = Some path → openSync K path = Opened 0 →
  topology c ≠ ∅ →
  connect K (c, w) =
  (Throw Device_not_open,
   ({| protocol := {| device := Some {| HID.path := path; HID.fd := Some 0 |} |};
       state := LOCKED;
       topology := topology c |}, w)).
Proof.
  intros Hfind Hopen Hne.
  unfold connect, bind, on_protocol. simpl.
  rewrite protocol_connect_outcome, Hfind, Hopen. simpl.
  unfold initTopology, bind, this. simpl.
  destruct (Object_entries (topology c)) as [|entry entries] eqn:He.
  { by apply Object_entries_nonempty in He. }
  reflexivity.
Qed.

Lemma response_of_bounds w r :
  response_of K w = Some r → (0 < length r ≤ 65)%nat ∧ is_bytes r.
Proof.
  unfold response_of. destruct (readSync K w) as [bytes|]; [|done]. simpl.
  case_decide as Hz; simpl; [done|]. intros [= <-].
  split; [|apply is_bytes_Buffer_from].
  assert (∀ l, length (Buffer_from l) = length l) as Hl
    by (intros l; apply length_fmap).
  rewrite Hl. rewrite length_take in Hz |- *. lia.
Qed.

(** X9: a configuration that [getConfig] returns was read after exactly one
    read-config request; its bytes are at most 65, each in [0, 256), and
    start with [0xEC 0x30]; the channel counts are the bytes at offsets
    0x0A, 0x10 and 0x16, absent when the response is shorter; the
    controller is as it was. *)
Theorem getConfig_result c w config c' w' :
  getConfig K (c, w) = (Ok config, (c', w')) →
  c' = c ∧ state c ≠ DISCONNECTED ∧ w' = w ++ [getConfig_packet] ∧
  configBytes config = raw config ∧
  (0 < length (raw config) ≤ 65)%nat ∧ is_bytes (raw config) ∧
  raw config !! 0%nat = Some 0xEC ∧ raw config !! 1%nat = Some 0x30 ∧
  channel0_leds config = raw config !! 0x0A%nat ∧
  channel1_leds config = raw config !! 0x10%nat ∧
  channel2_leds config = raw config !! 0x16%nat ∧
  (channel2_leds config = None ↔ (length (raw config) ≤ 0x16)%nat) ∧
  (∀ n, channel2_leds config = Some n → 0 ≤ n < 256).
Proof.
  intros Hg. apply getConfig_outcome in Hg as [-> (Hs & -> & Hd)].
  split; [done|]. split; [done|]. split; [done|].
  unfold decodeConfig in Hd.
  destruct (response_of K _) as [r|] eqn:Hr; [|done].
  apply response_of_bounds in Hr as [Hlen Hbytes].
  case_decide as Hprefix; [done|]. injection Hd as <-. simpl.
  unfold Buffer_get in *.
  repeat split_and; try done; try lia.
  - destruct (decide (r !! 0%nat = Some 0xEC)); [done|].
    exfalso. apply Hprefix. by left.
  - destruct (decide (r !! 1%nat = Some 0x30)); [done|].
    exfalso. apply Hprefix. by right.
  - apply lookup_ge_None.
  - intros n Hn. unfold is_bytes in Hbytes.
    rewrite Forall_lookup in Hbytes. by apply (Hbytes _ _ Hn).
Qed.

Lemma call_getConfig_wire c w res c' w' :
  on_protocol (Protocol.getConfig K) (c, w) = (res, (c', w')) →
  w' = w ∨ ∃ n, w' = w ++ [take n getConfig_packet].
Proof.
  unfold on_protocol, Protocol.getConfig, bind. simpl.
  destruct (sendPacket K getConfig_packet true (protocol c, w))
    as [[r|e] [p1 w1]] eqn:Hs; apply sendPacket_outcome in Hs as [-> Hs];
    rewrite (Buffer_from_bytes _ is_bytes_getConfig_packet) in Hs.
  - destruct Hs as (_ & -> & _). unfold of_result. simpl.
    intros [= _ _ <-]. right. exists 65%nat. by rewrite take_ge.
  - simpl. intros [= _ _ <-]. destruct Hs as [->|(n & _ & _ & ->)]; eauto.
Qed.

Lemma getConfig_wire c w res c' w' :
  getConfig K (c, w) = (res, (c', w')) →
  w' = w ∨ ∃ n, w' = w ++ [take n getConfig_packet].
Proof.
  unfold getConfig, bind, this. simpl. case_decide.
  - intros [= _ _ <-]. by left.
  - apply call_getConfig_wire.
Qed.

(** X10: [isBricked] never throws, whatever the device does, and leaves the
    controller as it was; it writes at most one buffer, the read-config
    request (or the part of it the device took). *)
Theorem isBricked_never_throws c w :
  ∃ bricked w',
    isBricked K (c, w) = (Ok bricked, (c, w')) ∧
    (w' = w ∨ ∃ n, w' = w ++ [take n getConfig_packet]).
Proof.
  destruct (isBricked K (c, w)) as [res [c' w']] eqn:Hb.
  pose proof Hb as Hb'. apply isBricked_outcome in Hb' as [-> [bricked ->]].
  exists bricked, w'. split; [done|].
  unfold isBricked, try_catch, bind in Hb.
  destruct (getConfig K (c, w)) as [[config|e] [c1 w1]] eqn:Hg;
    apply getConfig_wire in Hg.
  - repeat case_decide; by injection Hb as _ _ <-.
  - by injection Hb as _ _ <-.
Qed.

(** X22: a [connect] that throws either failed before the device opened,
    and then nothing was written and the session is as it was, or failed
    while sending the topology, and then the session is [LOCKED] (never
    [RUNTIME]) and holds the new handle; the topology is kept either way. *)
Theorem connect_failure_states c w e c' w' :
  connect K (c, w) = (Throw e, (c', w')) →
  (c' = c ∧ w' = w ∧ (kind e = ConnectionError ∨ e = Fs_error)) ∨
  (state c' = LOCKED ∧ device (protocol c') ≠ None ∧
   topology c' = topology c ∧ kind e = OtherError).
Proof.
  unfold connect, bind, on_protocol. simpl.
  rewrite protocol_connect_outcome.
  destruct (findAuraDevice K) as [path|]; simpl;
    [|rewrite with_protocol_id; intros [= <- <- <-]; left; auto].
  destruct (openSync K path) as [n| | |]; simpl;
    try (rewrite with_protocol_id; intros [= <- <- <-]; left; by auto).
  intros Hinit. right.
  assert (Hk : kind e = OtherError)
    by (eapply initTopology_error_kind; [|exact Hinit]; simpl; discriminate).
  apply initTopology_outcome in Hinit. by subst c'.
Qed.

(** ** Truncated and invalid responses *)

Lemma decodeConfig_valid r :
  r !! 0%nat = Some 0xEC → r !! 1%nat = Some 0x30 →
  decodeConfig (Some r) =
  Ok {| raw := r; configBytes := r;
        channel0_leds := r !! 0x0A%nat;
        channel1_leds := r !! 0x10%nat;
        channel2_leds := r !! 0x16%nat |}.
Proof.
  intros H0 H1. unfold decodeConfig, Buffer_get.
  rewrite decide_False; [done|]. by intros [?|?].
Qed.

(** X11: on a response with the right prefix that stops before offset
    0x0A, all three counts are absent and [isBricked] returns true; on one
    that holds non-zero counts for channels 0 and 1 but stops before offset
    0x16, [isBricked] returns false although channel 2 is absent. *)
Theorem isBricked_truncated_response c w r :
  accepting K → opened (protocol c) → state c ≠ DISCONNECTED →
  response_of K (w ++ [getConfig_packet]) = Some r →
  r !! 0%nat = Some 0xEC → r !! 1%nat = Some 0x30 →
  ((length r ≤ 0x0A)%nat →
     isBricked K (c, w) = (Ok true, (c, w ++ [getConfig_packet]))) ∧
  (∀ a b, (length r ≤ 0x16)%nat →
     r !! 0x0A%nat = Some a → r !! 0x10%nat = Some b → a ≠ 0 → b ≠ 0 →
     isBricked K (c, w) = (Ok false, (c, w ++ [getConfig_packet]))).
Proof.
  intros Hacc Hopen Hs Hr H0 H1.
  assert (Hget : getConfig K (c, w) =
            (decodeConfig (Some r), (c, w ++ [getConfig_packet]))).
  { rewrite getConfig_connected by done. by rewrite Hr. }
  rewrite decodeConfig_valid in Hget by done.
  unfold isBricked, try_catch, bind. rewrite Hget. simpl. split.
  - intros Hlen.
    rewrite !(lookup_ge_None_2 r) by lia.
    rewrite decide_False by (by intros [?|[?|?]]).
    by rewrite decide_True.
  - intros a b Hlen Ha Hb Hna Hnb.
    rewrite Ha, Hb, (lookup_ge_None_2 r 22) by lia.
    rewrite decide_False by (intros [?|[?|?]]; congruence).
    rewrite decide_False; [done|]. by intros (_ & ? & _).
Qed.

(** X12: [unbrick] either returns, and then the session was connected,
    every packet (topology, commit, read-config) was written in full and
    the state is [COMMITTED]; or it throws and the controller is as it was.
    In particular, when the writes go through but the response is absent or
    does not start with [0xEC 0x30], [unbrick] throws 'Invalid config
    response' after the commit packet was sent, and the state is not set to
    [COMMITTED]. *)
Theorem unbrick_all_or_nothing targetTopology c w :
  let sent := w ++ topology_packets (default (topology c) targetTopology)
                ++ [commit_packet; getConfig_packet] in
  (∀ success c' w',
     unbrick K targetTopology (c, w) = (Ok success, (c', w')) →
     state c ≠ DISCONNECTED ∧ c' = with_state COMMITTED c ∧ w' = sent) ∧
  (∀ e c' w', unbrick K targetTopology (c, w) = (Throw e, (c', w')) → c' = c) ∧
  (accepting K → opened (protocol c) → state c ≠ DISCONNECTED →
   ∀ e, decodeConfig (response_of K sent) = Throw e →
     unbrick K targetTopology (c, w) = (Throw Invalid_config_response, (c, sent))).
Proof.
  intros sent. repeat split_and.
  - intros success c' w' Hu. apply unbrick_outcome in Hu.
    by destruct Hu as (? & ? & ? & _).
  - intros e c' w' Hu. by apply unbrick_outcome in Hu.
  - intros Hacc Hopen Hs e Hd.
    assert (He : e = Invalid_config_response).
    { unfold decodeConfig in Hd. destruct (response_of K sent); [case_decide|];
        by simplify_eq. }
    subst e.
    unfold unbrick, bind, this. simpl.
    rewrite topology_loop_ok by done.
    fold (topology_packets (default (topology c) targetTopology)).
    unfold Protocol.commit.
    rewrite call_send by (done || apply is_bytes_commit_packet).
    rewrite getConfig_connected by done.
    replace (((w ++ topology_packets (default (topology c) targetTopology))
                ++ [commit_packet]) ++ [getConfig_packet]) with sent
      by (unfold sent; by rewrite <- !(assoc_L (++))).
    by rewrite Hd.
Qed.

(** X13: when the writes go through and the response has the right prefix
    but stops before offset 0x16, the channel-2 count is absent and
    [unbrick] returns false, with the state set to [COMMITTED]. *)
Theorem unbrick_missing_channel2 targetTopology c w r :
  let sent := w ++ topology_packets (default (topology c) targetTopology)
                ++ [commit_packet; getConfig_packet] in
  accepting K → opened (protocol c) → state c ≠ DISCONNECTED →
  response_of K sent = Some r →
  r !! 0%nat = Some 0xEC → r !! 1%nat = Some 0x30 → (length r ≤ 0x16)%nat →
  unbrick K targetTopology (c, w) = (Ok false, (with_state COMMITTED c, sent)).
Proof.
  intros sent Hacc Hopen Hs Hr H0 H1 Hlen.
  unfold unbrick, bind, this. simpl.
  rewrite topology_loop_ok by done.
  fold (topology_packets (default (topology c) targetTopology)).
  unfold Protocol.commit.
  rewrite call_send by (done || apply is_bytes_commit_packet).
  rewrite getConfig_connected by done.
  replace (((w ++ topology_packets (default (topology c) targetTopology))
              ++ [commit_packet]) ++ [getConfig_packet]) with sent
    by (unfold sent; by rewrite <- !(assoc_L (++))).
  rewrite Hr, decodeConfig_valid by done. simpl.
  by rewrite (lookup_ge_None_2 r 22) by lia.
Qed.

(** ** Colour and effect operations once the topology is set *)

(** X14: in state [RUNTIME] or [COMMITTED], on a transport that takes the
    writes, [setLED] and [setEffect] each send exactly one packet and leave
    the controller, and so the state, as it was: a one-triplet direct-colour
    packet at the LED's offset, and an effect packet whose omitted colour
    components are 0 and whose omitted brightness is 0xFF. *)
Theorem color_ops_when_ready c w channel ledIndex mode r g b er eg eb brightness :
  accepting K → opened (protocol c) →
  state c = RUNTIME ∨ state c = COMMITTED →
  setLED K channel ledIndex r g b (c, w) =
    (Ok tt, (c, w ++ [[0xEC; 0x40; ToUint8 (Z.lor 0x80 channel); ToUint8 ledIndex; 1;
                       ToUint8 r; ToUint8 g; ToUint8 b] ++ replicate 57 0])) ∧
  setEffect K channel mode er eg eb brightness (c, w) =
    (Ok tt, (c, w ++ [[0xEC; 0x35; ToUint8 channel; ToUint8 mode;
                       ToUint8 (default 0 er); ToUint8 (default 0 eg);
                       ToUint8 (default 0 eb); ToUint8 (default 0xFF brightness)]
                      ++ replicate 57 0])) ∧
  setEffect K channel mode None None None None (c, w) =
    (Ok tt, (c, w ++ [[0xEC; 0x35; ToUint8 channel; ToUint8 mode; 0; 0; 0; 0xFF]
                      ++ replicate 57 0])).
Proof.
  intros Hacc Hopen Hs.
  assert (state c ≠ DISCONNECTED ∧ state c ≠ LOCKED) as [Hd Hl]
    by (destruct Hs as [-> | ->]; done).
  repeat split_and.
  - unfold setLED, bind. rewrite ensureRuntime_ready by done.
    unfold Protocol.setDirectLED.
    by rewrite call_send by
      (done || apply length_setDirectLED_packet || apply is_bytes_setDirectLED_packet).
  - unfold setEffect, bind. rewrite ensureRuntime_ready by done.
    unfold Protocol.setEffect.
    by rewrite call_send by (done || apply is_bytes_setEffect_packet).
  - unfold setEffect, bind. rewrite ensureRuntime_ready by done.
    unfold Protocol.setEffect.
    by rewrite call_send by (done || apply is_bytes_setEffect_packet).
Qed.

(** X15: in state [RUNTIME] or [COMMITTED], on a transport that takes the
    writes, [setAllLEDs] for a channel whose fill count is a valid array
    length sends exactly one packet: count byte the fill count modulo 256,
    then [min(count, 20)] copies of the colour, then zeros; the controller
    is as it was. For a negative count, or one of 2^32 or more, it throws a
    RangeError and sends nothing. *)
Theorem setAllLEDs_when_ready c w channel r g b :
  accepting K → opened (protocol c) →
  state c = RUNTIME ∨ state c = COMMITTED →
  let count := fill_count (topology c) channel in
  let carried := (Z.to_nat count `min` 20)%nat in
  (0 ≤ count < 2 ^ 32 →
     setAllLEDs K channel r g b (c, w) =
       (Ok tt, (c, w ++ [[0xEC; 0x40; ToUint8 (Z.lor 0x80 channel); 0; ToUint8 count]
                         ++ triplets (replicate carried (Color.rgb r g b))
                         ++ replicate (60 - 3 * carried) 0]))) ∧
  (count < 0 ∨ 2 ^ 32 ≤ count →
     setAllLEDs K channel r g b (c, w) = (Throw RangeError_array_length, (c, w))).
Proof.
  intros Hacc Hopen Hs count carried.
  assert (state c ≠ DISCONNECTED ∧ state c ≠ LOCKED) as [Hd Hl]
    by (destruct Hs as [-> | ->]; done).
  split; intros Hcount.
  - unfold setAllLEDs, bind. rewrite ensureRuntime_ready by done.
    unfold this. simpl. fold (fill_count (topology c) channel). fold count.
    rewrite decide_False by lia.
    unfold Protocol.setDirectLED.
    rewrite call_send by
      (done || apply length_setDirectLED_packet || apply is_bytes_setDirectLED_packet).
    rewrite setDirectLED_packet_eq, length_replicate, take_replicate, Z2Nat.id by lia.
    by rewrite (Nat.min_comm 20).
  - unfold setAllLEDs, bind. rewrite ensureRuntime_ready by done.
    unfold this. simpl. fold (fill_count (topology c) channel). fold count.
    by rewrite decide_True.
Qed.

(** X16: after a [commit], colour operations do not make a further
    [commit] legal: commit, setLED, commit ends in a state error with the
    state still [COMMITTED]; with [initTopology] in between, the second
    [commit] goes through. *)
Theorem commit_again_needs_initTopology c w channel ledIndex r g b :
  accepting K → opened (protocol c) → state c = RUNTIME →
  (let* _ := commit K in
   let* _ := setLED K channel ledIndex r g b in
   commit K) (c, w) =
    (Throw (BSM_cannot_commit COMMITTED),
     (with_state COMMITTED c,
      w ++ [commit_packet; setDirectLED_packet channel ledIndex [Color.rgb r g b]])) ∧
  (let* _ := commit K in
   let* _ := initTopology K in
   commit K) (c, w) =
    (Ok tt,
     (with_state COMMITTED c,
      w ++ [commit_packet] ++ topology_packets (topology c) ++ [commit_packet])).
Proof.
  intros Hacc Hopen Hs.
  assert (Hcommit : ∀ c0 w0, state c0 = RUNTIME → opened (protocol c0) →
            commit K (c0, w0) = (Ok tt, (with_state COMMITTED c0, w0 ++ [commit_packet]))).
  { intros c0 w0 Hs0 Hopen0. unfold commit, bind, this. simpl.
    rewrite decide_False by (intros ?; done).
    unfold Protocol.commit.
    by rewrite call_send by (done || apply is_bytes_commit_packet). }
  split.
  - unfold bind at 1. rewrite Hcommit by done.
    unfold bind at 1. unfold setLED, bind at 1.
    rewrite ensureRuntime_ready by done.
    unfold Protocol.setDirectLED.
    rewrite call_send by
      (done || apply length_setDirectLED_packet || apply is_bytes_setDirectLED_packet).
    unfold commit, bind, this. simpl.
    by rewrite <- (assoc_L (++)).
  - unfold bind at 1. rewrite Hcommit by done.
    unfold bind at 1. rewrite initTopology_ok by done.
    rewrite Hcommit by done. simpl.
    by rewrite <- !(assoc_L (++)).
Qed.

End WithKernel.

(** ** The codec on out-of-range and boundary values *)

(** X17: the set-topology packet keeps only the low byte of the channel and
    of the count: two packets are equal exactly when both agree modulo 256,
    so a count of [n + 256] is sent as [n] (256 as the count 0). *)
Theorem setLEDCount_packet_wraps channel count channel' count' :
  (setLEDCount_packet channel count = setLEDCount_packet channel' count' ↔
     channel mod 256 = channel' mod 256 ∧ count mod 256 = count' mod 256) ∧
  setLEDCount_packet channel count !! 3%nat = Some (channel mod 256) ∧
  setLEDCount_packet channel count !! 4%nat = Some (count mod 256) ∧
  setLEDCount_packet channel (count + 256) = setLEDCount_packet channel count.
Proof.
  rewrite !setLEDCount_packet_eq. unfold ToUint8. repeat split_and.
  - split.
    + by intros [= -> ->].
    + by intros [-> ->].
  - done.
  - done.
  - do 5 f_equal. replace (count + 256) with (count + 1 * 256) by lia.
    by rewrite Z.mod_add.
Qed.

Lemma lor_0x80_byte (y : Z) : 128 ≤ Z.lor 0x80 y mod 256 < 256.
Proof.
  pose proof (Z.mod_pos_bound (Z.lor 0x80 y) 256 ltac:(lia)) as Hb.
  split; [|lia].
  destruct (decide (Z.lor 128 y mod 256 < 128)) as [Hlt|]; [|lia].
  exfalso.
  assert (Hbit : Z.testbit (Z.lor 128 y mod 256) 7 = true).
  { change 256 with (2 ^ 8). rewrite Z.mod_pow2_bits_low by lia.
    rewrite Z.lor_spec. change 128 with (2 ^ 7).
    by rewrite Z.pow2_bits_true by lia. }
  destruct (decide (Z.lor 128 y mod 256 = 0)) as [H0|H0].
  - rewrite H0 in Hbit. by rewrite Z.bits_0 in Hbit.
  - rewrite Z.bits_above_log2 in Hbit; [done|lia|].
    apply Z.log2_lt_pow2; lia.
Qed.

Lemma lor_0x80_small (y : Z) : 0 ≤ y < 128 → Z.lor 0x80 y = 128 + y.
Proof.
  intros Hy.
  assert (Hland : Z.land 128 y = 0).
  { apply Z.bits_inj'. intros n Hn. rewrite Z.land_spec, Z.bits_0.
    destruct (decide (n = 7)) as [->|Hne].
    - destruct (decide (y = 0)) as [->|]; [by rewrite Z.bits_0, andb_false_r|].
      rewrite (Z.bits_above_log2 y 7); [apply andb_false_r|lia|].
      apply Z.log2_lt_pow2; lia.
    - change 128 with (2 ^ 7). by rewrite Z.pow2_bits_false by lia. }
  rewrite <- Z.lxor_lor by done. symmetry. by apply Z.add_nocarry_lxor.
Qed.

(** X18: the channel byte of a direct-colour packet always has the
    addressing bit 0x80 set, whatever the channel; for channels 0 to 127 it
    is 0x80 plus the channel. *)
Theorem direct_channel_byte channel offset colors :
  ∃ byte,
    setDirectLED_packet channel offset colors !! 2%nat = Some byte ∧
    128 ≤ byte < 256 ∧
    Z.testbit byte 7 = true ∧
    (0 ≤ channel < 128 → byte = 128 + channel).
Proof.
  exists (Z.lor 0x80 channel mod 256).
  rewrite setDirectLED_packet_eq. split; [done|].
  split; [apply lor_0x80_byte|]. split.
  - change 256 with (2 ^ 8). rewrite Z.mod_pow2_bits_low by lia.
    rewrite Z.lor_spec. change 128 with (2 ^ 7).
    by rewrite Z.pow2_bits_true by lia.
  - intros Hc. rewrite lor_0x80_small by done. apply Z.mod_small. lia.
Qed.

(** ** Against a device whose configuration table is known *)

Lemma is_bytes_config_response c0 c1 c2 :
  0 ≤ c0 < 256 → 0 ≤ c1 < 256 → 0 ≤ c2 < 256 →
  is_bytes (config_response c0 c1 c2).
Proof.
  intros H0 H1 H2. unfold is_bytes, config_response. simpl.
  repeat (constructor; [lia|]). constructor.
Qed.

Lemma response_of_answering c0 c1 c2 w :
  0 ≤ c0 < 256 → 0 ≤ c1 < 256 → 0 ≤ c2 < 256 →
  response_of (answering (config_response c0 c1 c2)) w =
  Some (config_response c0 c1 c2).
Proof.
  intros H0 H1 H2. unfold response_of, answering. cbn [readSync].
  rewrite (Buffer_from_bytes _ (is_bytes_config_response _ _ _ H0 H1 H2)).
  rewrite take_ge by done.
  rewrite decide_False by done. cbn [fmap option_fmap option_map].
  by rewrite (Buffer_from_bytes _ (is_bytes_config_response _ _ _ H0 H1 H2)).
Qed.

Lemma getConfig_answering c0 c1 c2 c w :
  0 ≤ c0 < 256 → 0 ≤ c1 < 256 → 0 ≤ c2 < 256 →
  state c ≠ DISCONNECTED → opened (protocol c) →
  getConfig (answering (config_response c0 c1 c2)) (c, w) =
  (Ok {| raw := config_response c0 c1 c2;
         configBytes := config_response c0 c1 c2;
         channel0_leds := Some c0;
         channel1_leds := Some c1;
         channel2_leds := Some c2 |},
   (c, w ++ [getConfig_packet])).
Proof.
  intros H0 H1 H2 Hs Hopen.
  rewrite getConfig_connected by (done || apply accepting_answering).
  by rewrite response_of_answering, decodeConfig_valid by done.
Qed.

(** X19: reading the configuration of a device whose table holds the bytes
    [c0], [c1], [c2] at offsets 0x0A, 0x10 and 0x16 returns exactly these
    three counts, after one read-config request, through the write, the
    read and the decoding. *)
Theorem getConfig_roundtrip c0 c1 c2 c w :
  0 ≤ c0 < 256 → 0 ≤ c1 < 256 → 0 ≤ c2 < 256 →
  state c ≠ DISCONNECTED → opened (protocol c) →
  ∃ config,
    getConfig (answering (config_response c0 c1 c2)) (c, w) =
      (Ok config, (c, w ++ [getConfig_packet])) ∧
    channel0_leds config = Some c0 ∧
    channel1_leds config = Some c1 ∧
    channel2_leds config = Some c2.
Proof.
  intros H0 H1 H2 Hs Hopen. eexists.
  rewrite getConfig_answering by done. done.
Qed.

Lemma isBricked_answering c0 c1 c2 c w :
  0 ≤ c0 < 256 → 0 ≤ c1 < 256 → 0 ≤ c2 < 256 →
  state c ≠ DISCONNECTED → opened (protocol c) →
  isBricked (answering (config_response c0 c1 c2)) (c, w) =
  (Ok (bricked_counts c0 c1 c2), (c, w ++ [getConfig_packet])).
Proof.
  intros H0 H1 H2 Hs Hopen. unfold isBricked, try_catch, bind.
  rewrite getConfig_answering by done. simpl.
  destruct (decide (Some c0 = Some 0 ∨ Some c1 = Some 0 ∨ Some c2 = Some 0))
    as [Hz|Hz];
    [|destruct (decide (Some c0 = Some c1 ∧ Some c1 = Some c2 ∧ Some c0 ≠ Some 15))
        as [He|He]];
    unfold bricked_counts, ret.
  - rewrite bool_decide_eq_true_2; [done|]. left.
    destruct Hz as [?|[?|?]]; simplify_eq; auto.
  - rewrite bool_decide_eq_true_2; [done|]. right.
    destruct He as (? & ? & ?). simplify_eq. repeat split; congruence.
  - rewrite bool_decide_eq_false_2; [done|].
    intros [Hz'|[Ha [Hb Hne]]].
    + apply Hz. destruct Hz' as [-> | [-> | ->]]; auto.
    + apply He. subst. repeat split; congruence.
Qed.

Lemma unbrick_answering c0 c1 c2 c w :
  0 ≤ c0 < 256 → 0 ≤ c1 < 256 → 0 ≤ c2 < 256 →
  state c ≠ DISCONNECTED → opened (protocol c) →
  unbrick (answering (config_response c0 c1 c2)) None (c, w) =
  (Ok (bool_decide (16 ≤ c2)),
   (with_state COMMITTED c,
    w ++ topology_packets (topology c) ++ [commit_packet; getConfig_packet])).
Proof.
  intros H0 H1 H2 Hs Hopen. unfold unbrick, bind, this. simpl.
  rewrite topology_loop_ok by (done || apply accepting_answering).
  fold (topology_packets (topology c)).
  unfold Protocol.commit.
  rewrite call_send by
    (done || apply accepting_answering || apply is_bytes_commit_packet).
  rewrite getConfig_answering by done. simpl.
  by rewrite <- !(assoc_L (++)).
Qed.

(** X20: run against a device whose table reads the bytes [c0], [c1],
    [c2], the unbrick tool exits with code 0 and ends disconnected in every
    case. It sends the topology and reads the table twice; it goes on to
    the recovery (topology again, commit, one more read) exactly when the
    counts are judged bricked, so a table that is not judged bricked is
    never committed. Whether the recovery is verified ([c2] at least 16) or
    not does not change the exit code. *)
Theorem unbrick_all_exit_code c0 c1 c2 w :
  0 ≤ c0 < 256 → 0 ≤ c1 < 256 → 0 ≤ c2 < 256 →
  let topology := topology_packets default_topology in
  Tools.unbrick_all (answering (config_response c0 c1 c2)) (new None, w) =
  (Ok 0,
   (new None,
    w ++ topology ++ [getConfig_packet; getConfig_packet]
      ++ (if bricked_counts c0 c1 c2
          then topology ++ [commit_packet; getConfig_packet]
          else []))).
Proof.
  intros H0 H1 H2 topo.
  unfold Tools.unbrick_all, try_catch, bind at 1.
  pose proof (connect_outcome (answering (config_response c0 c1 c2)) (new None) w)
    as Hconnect.
  simpl in Hconnect. rewrite Hconnect. clear Hconnect.
  rewrite initTopology_ok by (done || apply accepting_answering || by eexists).
  unfold bind at 1.
  rewrite getConfig_answering by (done || by eexists).
  unfold bind at 1.
  rewrite isBricked_answering by (done || by eexists).
  unfold bind at 1.
  destruct (bricked_counts c0 c1 c2).
  - unfold bind at 1.
    rewrite unbrick_answering by (done || by eexists).
    unfold ret at 1. unfold bind.
    rewrite disconnect_outcome. simpl. unfold ret, topology_packets, new. simpl.
    by rewrite <- !(assoc_L (++)).
  - unfold ret at 1. unfold bind.
    rewrite disconnect_outcome. simpl. unfold ret, new. simpl.
    by rewrite <- !(assoc_L (++)).
Qed.

(** X21: the unbrick tool never throws and exits with code 0 or 1; code 0
    means the script reached its [disconnect], so the session ends
    [DISCONNECTED] without a handle; when no device node is found it exits
    with code 1 and writes nothing. *)
Theorem unbrick_all_never_throws K s :
  ∃ code s',
    Tools.unbrick_all K s = (Ok code, s') ∧
    (code = 0 ∨ code = 1) ∧
    (code = 0 → state s'.1 = DISCONNECTED ∧ device (protocol s'.1) = None) ∧
    (findAuraDevice K = None → code = 1 ∧ s' = s).
Proof.
  unfold Tools.unbrick_all, try_catch.
  pose proof (connect_outcome K s.1 s.2) as Hconnect.
  destruct s as [c w]. simpl in Hconnect.
  unfold bind at 1.
  destruct (connect K (c, w)) as [[[]|e] s1] eqn:Hc.
  2:{ exists 1, s1. split; [done|]. split; [auto|]. split; [done|].
      intros Hnone. rewrite Hnone in Hconnect. by injection Hconnect as _ <-. }
  assert (Hfound : findAuraDevice K = None → False).
  { intros Hnone. by rewrite Hnone in Hconnect. }
  unfold bind at 1.
  destruct (getConfig K s1) as [[before|e] s2]; [|exists 1, s2; naive_solver].
  unfold bind at 1.
  destruct (isBricked K s2) as [[bricked|e] s3]; [|exists 1, s3; naive_solver].
  unfold bind at 1.
  destruct bricked.
  - unfold bind at 1.
    destruct (unbrick K None s3) as [[success|e] [c4 w4]];
      [|eexists 1, _; naive_solver].
    unfold ret at 1. unfold bind. rewrite disconnect_outcome. simpl.
    eexists 0, _. split; [reflexivity|]. naive_solver.
  - unfold ret at 1. unfold bind. destruct s3 as [c4 w4].
    rewrite disconnect_outcome. simpl.
    eexists 0, _. split; [reflexivity|]. naive_solver.
Qed.

(** ** Worked instances *)

Lemma default_topology_nonempty : default_topology ≠ ∅.
Proof.
  intros He. apply (f_equal (λ o : gmap N Z, o !! 0%N)) in He.
  vm_compute in He. discriminate He.
Qed.

Lemma disconnected_is_inert_witness :
  (call healthy Commit (new None, [])).2 = (new None, []) ∧
  ∃ e, (call healthy Commit (new None, [])).1 = Throw e.
Proof.
  destruct (disconnected_is_inert healthy Commit (new None) [])
    as [Hstore Hthrow]; [reflexivity | reflexivity | discriminate |].
  split; [exact Hstore|]. apply Hthrow; discriminate.
Defined.

Lemma sendPacket_all_or_error_witness :
  sendPacket healthy commit_packet false ({| device := None |}, []) =
  (Throw Not_connected, ({| device := None |}, [])).
Proof.
  apply (proj1 (sendPacket_all_or_error healthy commit_packet false
                  {| device := None |} [])).
  reflexivity.
Defined.

Lemma commit_all_or_nothing_witness :
  commit (short_writer 3) (session RUNTIME default_topology, []) =
  (Throw (Short_write 65 3),
   (session RUNTIME default_topology, [] ++ [take 3 commit_packet])).
Proof.
  apply (proj2 (proj2 (commit_all_or_nothing (short_writer 3)
                         (session RUNTIME default_topology) []))).
  - reflexivity.
  - apply plugged_opened.
  - reflexivity.
  - lia.
Defined.

Lemma connect_on_fd_zero_witness :
  connect on_fd_zero (new None, []) =
  (Throw Device_not_open,
   ({| protocol := {| device := Some {| HID.path := "/dev/hidraw0"; HID.fd := Some 0 |} |};
       state := LOCKED;
       topology := default_topology |}, [])).
Proof.
  apply (connect_on_fd_zero on_fd_zero (new None) [] "/dev/hidraw0").
  - reflexivity.
  - reflexivity.
  - apply default_topology_nonempty.
Defined.

Lemma getConfig_result_witness :
  ∃ config,
    getConfig healthy (session RUNTIME default_topology, []) =
      (Ok config, (session RUNTIME default_topology, [getConfig_packet])) ∧
    (length (raw config) ≤ 65)%nat ∧
    raw config !! 0%nat = Some 0xEC.
Proof.
  eexists. split; [vm_compute; reflexivity|].
  edestruct (getConfig_result healthy (session RUNTIME default_topology) [])
    as (_ & _ & _ & _ & Hlen & _ & Hprefix & _).
  - vm_compute. reflexivity.
  - split; [apply Hlen | exact Hprefix].
Defined.

Lemma isBricked_truncated_response_witness :
  isBricked truncated (session RUNTIME default_topology, []) =
  (Ok true, (session RUNTIME default_topology, [] ++ [getConfig_packet])).
Proof.
  apply (proj1 (isBricked_truncated_response truncated
                  (session RUNTIME default_topology) [] [0xEC; 0x30]
                  (accepting_answering _) plugged_opened
                  ltac:(discriminate) eq_refl eq_refl eq_refl)).
  simpl. lia.
Defined.

Lemma unbrick_all_or_nothing_witness :
  unbrick silent None (session RUNTIME default_topology, []) =
  (Throw Invalid_config_response,
   (session RUNTIME default_topology,
    [] ++ topology_packets default_topology ++ [commit_packet; getConfig_packet])).
Proof.
  apply (proj2 (proj2 (unbrick_all_or_nothing silent None
                         (session RUNTIME default_topology) []))
           ltac:(intros w buffer; reflexivity) plugged_opened
           ltac:(discriminate) Invalid_config_response).
  reflexivity.
Defined.

Lemma unbrick_missing_channel2_witness :
  unbrick truncated None (session RUNTIME default_topology, []) =
  (Ok false,
   (with_state COMMITTED (session RUNTIME default_topology),
    [] ++ topology_packets default_topology ++ [commit_packet; getConfig_packet])).
Proof.
  apply (unbrick_missing_channel2 truncated None
           (session RUNTIME default_topology) [] [0xEC; 0x30]).
  - apply accepting_answering.
  - apply plugged_opened.
  - discriminate.
  - reflexivity.
  - reflexivity.
  - reflexivity.
  - simpl. lia.
Defined.

Lemma color_ops_when_ready_witness :
  setLED healthy 2 9 255 0 0 (session COMMITTED default_topology, []) =
  (Ok tt, (session COMMITTED default_topology,
           [] ++ [[0xEC; 0x40; ToUint8 (Z.lor 0x80 2); ToUint8 9; 1;
                   ToUint8 255; ToUint8 0; ToUint8 0] ++ replicate 57 0])).
Proof.
  apply (color_ops_when_ready healthy (session COMMITTED default_topology) []
           2 9 0 255 0 0 None None None None).
  - apply accepting_answering.
  - apply plugged_opened.
  - right. reflexivity.
Defined.

Lemma setAllLEDs_when_ready_witness :
  setAllLEDs healthy 2 1 2 3 (session RUNTIME {[ 2%N := 60 ]}, []) =
  (Ok tt, (session RUNTIME {[ 2%N := 60 ]},
           [] ++ [[0xEC; 0x40; ToUint8 (Z.lor 0x80 2); 0; ToUint8 60]
                  ++ triplets (replicate 20 (Color.rgb 1 2 3))
                  ++ replicate 0 0])).
Proof.
  etrans.
  - apply (proj1 (setAllLEDs_when_ready healthy (session RUNTIME {[ 2%N := 60 ]}) []
                    2 1 2 3 (accepting_answering _) plugged_opened
                    (or_introl eq_refl))).
    vm_compute. split; [discriminate | reflexivity].
  - vm_compute. reflexivity.
Defined.

Lemma commit_again_needs_initTopology_witness :
  (let* _ := commit healthy in
   let* _ := setLED healthy 2 9 255 0 0 in
   commit healthy) (session RUNTIME default_topology, []) =
  (Throw (BSM_cannot_commit COMMITTED),
   (with_state COMMITTED (session RUNTIME default_topology),
    [] ++ [commit_packet; setDirectLED_packet 2 9 [Color.rgb 255 0 0]])).
Proof.
  apply (commit_again_needs_initTopology healthy
           (session RUNTIME default_topology) [] 2 9 255 0 0).
  - apply accepting_answering.
  - apply plugged_opened.
  - reflexivity.
Defined.

Lemma setLEDCount_packet_wraps_witness :
  setLEDCount_packet 2 16 = setLEDCount_packet 258 272.
Proof.
  apply (proj1 (setLEDCount_packet_wraps 2 16 258 272)).
  split; reflexivity.
Defined.

Lemma direct_channel_byte_witness :
  ∃ byte,
    setDirectLED_packet 2 0 [] !! 2%nat = Some byte ∧ byte = 128 + 2.
Proof.
  destruct (direct_channel_byte 2 0 []) as (byte & Hbyte & _ & _ & Hsmall).
  exists byte. split; [exact Hbyte|]. apply Hsmall. lia.
Defined.

Lemma getConfig_roundtrip_witness :
  ∃ config,
    getConfig (answering (config_response 15 15 9))
      (session RUNTIME default_topology, []) =
      (Ok config, (session RUNTIME default_topology, [] ++ [getConfig_packet])) ∧
    channel0_leds config = Some 15 ∧
    channel1_leds config = Some 15 ∧
    channel2_leds config = Some 9.
Proof.
  apply (getConfig_roundtrip 15 15 9 (session RUNTIME default_topology) []);
    try lia.
  - discriminate.
  - apply plugged_opened.
Defined.

Lemma unbrick_all_exit_code_witness :
  Tools.unbrick_all (answering (config_response 5 5 5)) (new None, []) =
  (Ok 0,
   (new None,
    [] ++ topology_packets default_topology
       ++ [getConfig_packet; getConfig_packet]
       ++ (if bricked_counts 5 5 5
           then topology_packets default_topology ++ [commit_packet; getConfig_packet]
           else []))).
Proof. apply (unbrick_all_exit_code 5 5 5 []); lia. Defined.

Lemma unbrick_all_never_throws_witness :
  Tools.unbrick_all absent (new None, []) = (Ok 1, (new None, [])).
Proof.
  destruct (unbrick_all_never_throws absent (new None, []))
    as (code & s' & Hrun & _ & _ & Hnone).
  destruct (Hnone eq_refl) as [-> ->]. exact Hrun.
Defined.

Lemma connect_failure_states_witness :
  state (connect on_fd_zero (new None, [])).2.1 = LOCKED.
Proof.
  destruct (connect_failure_states on_fd_zero (new None) [] Device_not_open
              (connect on_fd_zero (new None, [])).2.1
              (connect on_fd_zero (new None, [])).2.2)
    as [(_ & _ & [Hk|He])|(Hs & _)].
  - vm_compute. reflexivity.
  - discriminate Hk.
  - discriminate He.
  - exact Hs.
Defined.

Example unbrick_all_on_healthy_device :
  Tools.unbrick_all healthy (new None, []) =
  (Ok 0, (new None,
          topology_packets default_topology ++ [getConfig_packet; getConfig_packet])).
Proof. vm_compute. reflexivity. Qed.

End Behaviour.
